(** * CMS admin shell: the two reducers and their providers

    A shallow embedding of the state layer of the admin UI:
    [appReducer] (content types and entries), [uiReducer] (theme,
    direction, sidebar, loading, error), the [UIProvider] that
    initialises the preferences from [localStorage] and writes them
    back, the [Header] buttons and the save handler of
    [ContentTypeBuilder]; then the login form, the dashboard, the page
    switch of [MainLayout], and the content-type form with the field
    objects it shares with the store.

    Conventions.
    - An action is the object [{ type, payload }] that is dispatched;
      [action: any] in the source, so the payload is a tagged value and
      each case of a reducer reads it at the type of the field it is
      stored in.  A payload of another shape has no image in the typed
      state: the reducer is then undefined ([None]).  [None] is the
      boundary of the model, never an exception of the program.
    - [Theme] and [Direction] are string-literal unions that the
      provider fills from [localStorage] through an unchecked cast, so
      the state holds a plain string for them; [isTheme] and
      [isDirection] say when that string is a member of the union.
    - [Date.now()] and [new Date().toISOString()] are inputs: the clock
      reading is an argument of whatever reads the clock.
    - The reducers are the complete ones of the single-file
      application.  The split [UIContext] module adds a [currentPage]
      field and a [SET_PAGE] case of which only a fragment exists; they
      are not part of the state modelled here. *)

From stdpp Require Import base option list strings gmap pretty.

Local Open Scope string_scope.
Local Open Scope Z_scope.

(** ** Types *)

Inductive FieldType :=
  | text | textarea | number | boolean | select | relation | media.

Inductive Status := draft | published.

(** A value stored in an entry's [data: Record<string, any>]; numbers
    are restricted to integers, nested objects are left out. *)
Inductive JsValue :=
  | JsNull
  | JsBool (b : bool)
  | JsNumber (n : Z)
  | JsString (s : string).

Record User := mkUser {
  u_id : string;
  u_name : string;
  u_email : string;
  u_role : string
}.

Record Field := mkField {
  f_id : string;
  f_name : string;
  f_type : FieldType;
  f_required : option bool;
  f_options : option (list string);
  f_relation : option string
}.

Record ContentType := mkContentType {
  ct_id : string;
  ct_name : string;
  ct_singularName : string;
  ct_pluralName : string;
  ct_fields : list Field
}.

Record ContentEntry := mkContentEntry {
  e_id : string;
  e_contentType : string;
  e_status : Status;
  e_data : gmap string JsValue;
  e_createdAt : string;
  e_updatedAt : string
}.

Record AppState := mkAppState {
  user : option User;
  isAuthenticated : bool;
  contentTypes : list ContentType;
  entries : list ContentEntry
}.

Record UIState := mkUIState {
  theme : string;
  direction : string;
  sidebarOpen : bool;
  loading : bool;
  error : option string
}.

Definition isTheme (s : string) : Prop := s = "light" ∨ s = "dark".
Definition isDirection (s : string) : Prop := s = "ltr" ∨ s = "rtl".

(** ** Actions *)

Inductive Payload :=
  | NoPayload
  | PNull
  | PBool (b : bool)
  | PString (s : string)
  | PUser (u : User)
  | PContentType (ct : ContentType)
  | PContentTypes (cts : list ContentType)
  | PEntry (e : ContentEntry)
  | PEntries (es : list ContentEntry).

Record Action := mkAction { type : string; payload : Payload }.

(** The payload read at the type of the field it goes to. *)
Definition asUserOrNull (p : Payload) : option (option User) :=
  match p with PUser u => Some (Some u) | PNull => Some None | _ => None end.
Definition asStringOrNull (p : Payload) : option (option string) :=
  match p with PString s => Some (Some s) | PNull => Some None | _ => None end.
Definition asString (p : Payload) : option string :=
  match p with PString s => Some s | _ => None end.
Definition asBool (p : Payload) : option bool :=
  match p with PBool b => Some b | _ => None end.
Definition asContentType (p : Payload) : option ContentType :=
  match p with PContentType ct => Some ct | _ => None end.
Definition asContentTypes (p : Payload) : option (list ContentType) :=
  match p with PContentTypes cts => Some cts | _ => None end.
Definition asEntry (p : Payload) : option ContentEntry :=
  match p with PEntry e => Some e | _ => None end.
Definition asEntries (p : Payload) : option (list ContentEntry) :=
  match p with PEntries es => Some es | _ => None end.

(** ** [switch]

    [switch (x) { case l1: return b1; ... default: return d; }] where
    every case returns: the first case whose label is strictly equal to
    the scrutinee, the default when there is none. *)
Fixpoint switch {A : Type} (scrutinee : string) (cases : list (string * A))
    (default : A) : A :=
  match cases with
  | [] => default
  | (label, body) :: rest =>
      if decide (scrutinee = label) then body else switch scrutinee rest default
  end.

(** ** [{ ...state, field: value }] *)

Definition with_user (u : option User) (auth : bool) (s : AppState) : AppState :=
  {| user := u; isAuthenticated := auth;
     contentTypes := contentTypes s; entries := entries s |}.
Definition with_contentTypes (cts : list ContentType) (s : AppState) : AppState :=
  {| user := user s; isAuthenticated := isAuthenticated s;
     contentTypes := cts; entries := entries s |}.
Definition with_entries (es : list ContentEntry) (s : AppState) : AppState :=
  {| user := user s; isAuthenticated := isAuthenticated s;
     contentTypes := contentTypes s; entries := es |}.

Definition with_theme (v : string) (s : UIState) : UIState :=
  {| theme := v; direction := direction s; sidebarOpen := sidebarOpen s;
     loading := loading s; error := error s |}.
Definition with_direction (v : string) (s : UIState) : UIState :=
  {| theme := theme s; direction := v; sidebarOpen := sidebarOpen s;
     loading := loading s; error := error s |}.
Definition with_sidebarOpen (v : bool) (s : UIState) : UIState :=
  {| theme := theme s; direction := direction s; sidebarOpen := v;
     loading := loading s; error := error s |}.
Definition with_loading (v : bool) (s : UIState) : UIState :=
  {| theme := theme s; direction := direction s; sidebarOpen := sidebarOpen s;
     loading := v; error := error s |}.
Definition with_error (v : option string) (s : UIState) : UIState :=
  {| theme := theme s; direction := direction s; sidebarOpen := sidebarOpen s;
     loading := loading s; error := v |}.

(** ** The reducers *)

Definition appCases (state : AppState) (action : Action)
    : list (string * option AppState) :=
  [ ("LOGIN",
      u ← asUserOrNull (payload action);
      Some (with_user u true state));
    ("LOGOUT",
      Some (with_user None false state));
    ("SET_CONTENT_TYPES",
      cts ← asContentTypes (payload action);
      Some (with_contentTypes cts state));
    ("ADD_CONTENT_TYPE",
      p ← asContentType (payload action);
      Some (with_contentTypes (contentTypes state ++ [p]) state));
    ("UPDATE_CONTENT_TYPE",
      p ← asContentType (payload action);
      Some (with_contentTypes
              ((λ ct, if decide (ct_id ct = ct_id p) then p else ct)
                 <$> contentTypes state) state));
    ("DELETE_CONTENT_TYPE",
      i ← asString (payload action);
      Some (with_contentTypes
              (filter (λ ct, ct_id ct ≠ i) (contentTypes state)) state));
    ("SET_ENTRIES",
      es ← asEntries (payload action);
      Some (with_entries es state));
    ("ADD_ENTRY",
      p ← asEntry (payload action);
      Some (with_entries (entries state ++ [p]) state));
    ("UPDATE_ENTRY",
      p ← asEntry (payload action);
      Some (with_entries
              ((λ e, if decide (e_id e = e_id p) then p else e)
                 <$> entries state) state));
    ("DELETE_ENTRY",
      i ← asString (payload action);
      Some (with_entries
              (filter (λ e, e_id e ≠ i) (entries state)) state)) ].

Definition appReducer (state : AppState) (action : Action) : option AppState :=
  switch (type action) (appCases state action) (Some state).

Definition uiCases (state : UIState) (action : Action)
    : list (string * option UIState) :=
  [ ("TOGGE_TLHEME",
      Some (with_theme
              (if decide (theme state = "light") then "dark" else "light") state));
    ("SET_THEME",
      v ← asString (payload action);
      Some (with_theme v state));
    ("TOGGLE_DIRECTION",
      Some (with_direction
              (if decide (direction state = "ltr") then "rtl" else "ltr") state));
    ("SET_DIRECTION",
      v ← asString (payload action);
      Some (with_direction v state));
    ("TOGGLE_SIDEBAR",
      Some (with_sidebarOpen (negb (sidebarOpen state)) state));
    ("SET_LOADING",
      v ← asBool (payload action);
      Some (with_loading v state));
    ("SET_ERROR",
      v ← asStringOrNull (payload action);
      Some (with_error v state)) ].

Definition uiReducer (state : UIState) (action : Action) : option UIState :=
  switch (type action) (uiCases state action) (Some state).

(** The case labels of the two [switch] statements, in source order. *)
Definition appCaseLabels : list string :=
  [ "LOGIN"; "LOGOUT"; "SET_CONTENT_TYPES"; "ADD_CONTENT_TYPE";
    "UPDATE_CONTENT_TYPE"; "DELETE_CONTENT_TYPE"; "SET_ENTRIES";
    "ADD_ENTRY"; "UPDATE_ENTRY"; "DELETE_ENTRY" ].
Definition uiCaseLabels : list string :=
  [ "TOGGE_TLHEME"; "SET_THEME"; "TOGGLE_DIRECTION"; "SET_DIRECTION";
    "TOGGLE_SIDEBAR"; "SET_LOADING"; "SET_ERROR" ].

(** ** [Header]: the actions its three buttons dispatch *)

Definition Header_toggleSidebar : Action :=
  {| type := "TOGGLE_SIDEBAR"; payload := NoPayload |}.
Definition Header_toggleTheme : Action :=
  {| type := "TOGGLE_THEME"; payload := NoPayload |}.
Definition Header_toggleDirection : Action :=
  {| type := "TOGGLE_DIRECTION"; payload := NoPayload |}.

(** ** [AppProvider]: the initial state

    Each timestamp is its own [new Date().toISOString()], so the four
    readings are four arguments. *)
Definition AppProvider_initial (t1 t2 t3 t4 : string) : AppState :=
  {| user := None;
     isAuthenticated := false;
     contentTypes :=
       [ {| ct_id := "1"; ct_name := "Article";
            ct_singularName := "article"; ct_pluralName := "articles";
            ct_fields :=
              [ mkField "1" "title" text (Some true) None None;
                mkField "2" "content" textarea (Some true) None None;
                mkField "3" "published" boolean None None None ] |};
         {| ct_id := "2"; ct_name := "Product";
            ct_singularName := "product"; ct_pluralName := "products";
            ct_fields :=
              [ mkField "1" "name" text (Some true) None None;
                mkField "2" "price" number (Some true) None None;
                mkField "3" "description" textarea None None None ] |} ];
     entries :=
       [ {| e_id := "1"; e_contentType := "article"; e_status := published;
            e_data :=
              {[ "title" := JsString "Getting Started";
                 "content" := JsString "Welcome to our CMS";
                 "published" := JsBool true ]};
            e_createdAt := t1; e_updatedAt := t2 |};
         {| e_id := "2"; e_contentType := "article"; e_status := draft;
            e_data :=
              {[ "title" := JsString "Draft Article";
                 "content" := JsString "Work in progress";
                 "published" := JsBool false ]};
            e_createdAt := t3; e_updatedAt := t4 |} ] |}.

(** ** [UIProvider]

    What the provider touches outside its state: [localStorage], the
    [dark] class of the root element and its [dir] attribute. *)
Record Browser := mkBrowser {
  localStorage : gmap string string;
  darkClass : bool;
  dir : string
}.

(** [localStorage.getItem(key)]: [null] ([None]) for an absent key. *)
Definition getItem (key : string) (ls : gmap string string) : option string :=
  ls !! key.
Definition setItem (key value : string) (ls : gmap string string)
    : gmap string string :=
  <[key := value]> ls.

(** [(v as T) || d]: [d] when [v] is falsy, that is [null] or the
    empty string; the cast checks nothing. *)
Definition orDefault (v : option string) (d : string) : string :=
  match v with
  | Some s => if decide (s = "") then d else s
  | None => d
  end.

(** The initial state handed to [useReducer]. *)
Definition UIProvider_initial (ls : gmap string string) : UIState :=
  {| theme := orDefault (getItem "theme" ls) "light";
     direction := orDefault (getItem "direction" ls) "ltr";
     sidebarOpen := true;
     loading := false;
     error := None |}.

(** The two effects. *)
Definition themeEffect (state : UIState) (b : Browser) : Browser :=
  {| localStorage := setItem "theme" (theme state) (localStorage b);
     darkClass := bool_decide (theme state = "dark");
     dir := dir b |}.
Definition directionEffect (state : UIState) (b : Browser) : Browser :=
  {| localStorage := setItem "direction" (direction state) (localStorage b);
     darkClass := darkClass b;
     dir := direction state |}.

Record UIStore := mkUIStore { ui : UIState; browser : Browser }.

(** First render: the state is read from storage, then both effects run. *)
Definition UIProvider_mount (b : Browser) : UIStore :=
  let state := UIProvider_initial (localStorage b) in
  {| ui := state; browser := directionEffect state (themeEffect state b) |}.

(** A dispatch: the reducer runs, then each effect whose dependency
    ([state.theme], [state.direction]) changed. *)
Definition UIProvider_dispatch (store : UIStore) (action : Action)
    : option UIStore :=
  state' ← uiReducer (ui store) action;
  let b1 := if decide (theme state' = theme (ui store)) then browser store
            else themeEffect state' (browser store) in
  let b2 := if decide (direction state' = direction (ui store)) then b1
            else directionEffect state' b1 in
  Some {| ui := state'; browser := b2 |}.

Fixpoint UIProvider_run (store : UIStore) (actions : list Action)
    : option UIStore :=
  match actions with
  | [] => Some store
  | a :: rest => store' ← UIProvider_dispatch store a; UIProvider_run store' rest
  end.

(** What the two effects maintain: each persisted key holds the value
    of the state. *)
Definition persisted (store : UIStore) : Prop :=
  localStorage (browser store) !! "theme" = Some (theme (ui store))
  ∧ localStorage (browser store) !! "direction" = Some (direction (ui store)).

(** ** [ContentTypeBuilder]: the save handler

    The form state is declared with four fields; the edit button puts a
    whole content type into it ([setFormData(type)]), so at run time it
    may carry an [id] as well, and a spread of it then overrides an [id]
    written before it. *)
Record FormData := mkFormData {
  fd_id : option string;
  fd_name : string;
  fd_singularName : string;
  fd_pluralName : string;
  fd_fields : list Field
}.

Record Builder := mkBuilder {
  isModalOpen : bool;
  editingType : option ContentType;
  formData : FormData
}.

Definition emptyForm : FormData :=
  {| fd_id := None; fd_name := ""; fd_singularName := "";
     fd_pluralName := ""; fd_fields := [] |}.

(** [{ id: i, ...formData }] and [{ ...editingType, ...formData }]. *)
Definition spreadForm (i : string) (fd : FormData) : ContentType :=
  {| ct_id := default i (fd_id fd);
     ct_name := fd_name fd;
     ct_singularName := fd_singularName fd;
     ct_pluralName := fd_pluralName fd;
     ct_fields := fd_fields fd |}.

(** The action [handleSave] dispatches; [now] is [Date.now()]. *)
Definition handleSave_action (now : Z) (c : Builder) : Action :=
  match editingType c with
  | Some et =>
      {| type := "UPDATE_CONTENT_TYPE";
         payload := PContentType (spreadForm (ct_id et) (formData c)) |}
  | None =>
      {| type := "ADD_CONTENT_TYPE";
         payload := PContentType (spreadForm (pretty now) (formData c)) |}
  end.

Definition handleSave (now : Z) (c : Builder) (state : AppState)
    : option (Builder * AppState) :=
  state' ← appReducer state (handleSave_action now c);
  Some ({| isModalOpen := false; editingType := None; formData := emptyForm |},
        state').

(** Defining a schema: the form is filled in while no content type is
    being edited, and saved at clock reading [now]. *)
Definition defineSchema (now : Z) (input : FormData) (state : AppState)
    : option AppState :=
  snd <$> handleSave now
    {| isModalOpen := true; editingType := None; formData := input |} state.

Fixpoint defineSchemas (calls : list (Z * FormData)) (state : AppState)
    : option AppState :=
  match calls with
  | [] => Some state
  | (now, input) :: rest =>
      state' ← defineSchema now input state; defineSchemas rest state'
  end.

(** ** Actions of the domain store, by payload *)

Definition UPDATE_CONTENT_TYPE (ct : ContentType) : Action :=
  {| type := "UPDATE_CONTENT_TYPE"; payload := PContentType ct |}.
Definition DELETE_CONTENT_TYPE (i : string) : Action :=
  {| type := "DELETE_CONTENT_TYPE"; payload := PString i |}.
Definition ADD_ENTRY (e : ContentEntry) : Action :=
  {| type := "ADD_ENTRY"; payload := PEntry e |}.
Definition UPDATE_ENTRY (e : ContentEntry) : Action :=
  {| type := "UPDATE_ENTRY"; payload := PEntry e |}.
Definition SET_THEME (v : string) : Action :=
  {| type := "SET_THEME"; payload := PString v |}.

(** A shallow merge in the words of the specification of [updateEntry]
    (the patch's keys overwrite, the keys it does not mention are
    retained); no function of the source computes it.  It is what the
    stored mapping is compared with. *)
Definition shallowMerge (patch old : gmap string JsValue) : gmap string JsValue :=
  patch ∪ old.

(** ** More actions of the two stores, by payload *)

Definition LOGIN (u : User) : Action :=
  {| type := "LOGIN"; payload := PUser u |}.
Definition LOGOUT : Action :=
  {| type := "LOGOUT"; payload := NoPayload |}.
Definition ADD_CONTENT_TYPE (ct : ContentType) : Action :=
  {| type := "ADD_CONTENT_TYPE"; payload := PContentType ct |}.
Definition DELETE_ENTRY (i : string) : Action :=
  {| type := "DELETE_ENTRY"; payload := PString i |}.

(** A run of the domain store: the actions are dispatched one after
    the other. *)
Fixpoint appRun (state : AppState) (actions : list Action) : option AppState :=
  match actions with
  | [] => Some state
  | a :: rest => state' ← appReducer state a; appRun state' rest
  end.

(** ** [LoginPage] and [App] *)

(** [handleSubmit]: [!email] and [!password] hold for the empty string
    only; [newErrors] gets one key per empty field. *)
Definition LoginPage_newErrors (email password : string) : gmap string string :=
  let e1 : gmap string string :=
    if decide (email = "") then <["email" := "Email is required"]> ∅ else ∅ in
  if decide (password = "") then <["password" := "Password is required"]> e1
  else e1.

Inductive SubmitResult :=
  | SetErrors (errors : gmap string string)
  | OnLogin (u : User).

Definition LoginPage_handleSubmit (email password : string) : SubmitResult :=
  let newErrors := LoginPage_newErrors email password in
  if decide (0 < size newErrors)%nat then SetErrors newErrors
  else OnLogin {| u_id := "1"; u_name := "Admin User";
                  u_email := email; u_role := "Administrator" |}.

(** [App] hands [onLogin] to the login page: it dispatches [LOGIN]. *)
Definition App_submit (email password : string) (state : AppState)
    : option AppState :=
  match LoginPage_handleSubmit email password with
  | SetErrors _ => Some state
  | OnLogin u => appReducer state (LOGIN u)
  end.

(** What [App] renders. *)
Inductive Screen := LoginScreen | AdminScreen.

Definition App (state : AppState) : Screen :=
  if isAuthenticated state then AdminScreen else LoginScreen.

(** The sign-out entry of the header's user menu. *)
Definition Header_signOut : Action := LOGOUT.

(** ** [Dashboard] *)

#[global] Instance Status_eq_dec : EqDecision Status.
Proof. solve_decision. Defined.

(** The four counters, as [(title, value)]. *)
Definition Dashboard_stats (state : AppState) : list (string * nat) :=
  [ ("Total Entries", length (entries state));
    ("Published",
      length (filter (λ e, e_status e = published) (entries state)));
    ("Drafts",
      length (filter (λ e, e_status e = draft) (entries state)));
    ("Content Types", length (contentTypes state)) ].

(** JavaScript truthiness of a property that may be missing
    ([undefined] is [None]). *)
Definition truthy (v : option JsValue) : bool :=
  match v with
  | None => false
  | Some JsNull => false
  | Some (JsBool b) => b
  | Some (JsNumber n) => negb (n =? 0)
  | Some (JsString s) => negb (bool_decide (s = ""))
  end.

(** [a || b]. *)
Definition jsOr (a b : option JsValue) : option JsValue :=
  if truthy a then a else b.

(** The rows of the activity table, [entries.slice(0, 5)], and the
    title cell [entry.data.title || entry.data.name || 'Untitled']. *)
Definition Dashboard_rows (state : AppState) : list ContentEntry :=
  take 5 (entries state).

Definition Dashboard_rowTitle (entry : ContentEntry) : option JsValue :=
  jsOr (e_data entry !! "title")
    (jsOr (e_data entry !! "name") (Some (JsString "Untitled"))).

(** ** [MainLayout] and the menu of the sidebar *)

Inductive PageView :=
  | DashboardPage | ContentTypeBuilderPage | MediaLibraryPage | SettingsPage.

Definition renderPage (currentPage : string) : PageView :=
  switch currentPage
    [ ("dashboard", DashboardPage);
      ("content-types", ContentTypeBuilderPage);
      ("media", MediaLibraryPage);
      ("settings", SettingsPage) ]
    DashboardPage.

(** [menuItems], as [(id, label)]; the icons are left out. *)
Definition menuItems : list (string * string) :=
  [ ("dashboard", "Dashboard");
    ("content-types", "Content Types");
    ("content-manager", "Content Manager");
    ("media", "Media Library");
    ("roles", "Roles & Permissions");
    ("settings", "Settings") ].

(** ** The rest of the header *)

(** Both conditions the two effects maintain outside [localStorage]. *)
Definition inSync (store : UIStore) : Prop :=
  darkClass (browser store) = bool_decide (theme (ui store) = "dark")
  ∧ dir (browser store) = direction (ui store).

(** ** [ContentTypeBuilder] with its field objects shared

    The inputs of the form change a field in place:
    [newFields[idx].name = e.target.value], where [newFields] is a new
    array whose elements are the objects of [formData.fields].  After
    the edit button [formData] is the stored content type itself, so
    those objects are the store's.  Here a content type holds
    references into a heap of field objects.  Arrays and content-type
    objects are only ever copied, never written to, so they stay
    values. *)

#[global] Instance FieldType_eq_dec : EqDecision FieldType.
Proof. solve_decision. Defined.

Record ContentTypeObj := mkContentTypeObj {
  o_id : string;
  o_name : string;
  o_singularName : string;
  o_pluralName : string;
  o_fields : list nat
}.

Record FormObj := mkFormObj {
  fo_id : option string;
  fo_name : string;
  fo_singularName : string;
  fo_pluralName : string;
  fo_fields : list nat
}.

Record BuilderObj := mkBuilderObj {
  bo_isModalOpen : bool;
  bo_editingType : option ContentTypeObj;
  bo_formData : FormObj
}.

(** The heap of field objects, [state.contentTypes] and the state of
    the component. *)
Record BuilderPage := mkBuilderPage {
  fieldObjects : list Field;
  storedTypes : list ContentTypeObj;
  component : BuilderObj
}.

Definition emptyFormObj : FormObj :=
  {| fo_id := None; fo_name := ""; fo_singularName := "";
     fo_pluralName := ""; fo_fields := [] |}.

(** [setFormData(type)]: the form state is the content type. *)
Definition formOfType (ty : ContentTypeObj) : FormObj :=
  {| fo_id := Some (o_id ty); fo_name := o_name ty;
     fo_singularName := o_singularName ty;
     fo_pluralName := o_pluralName ty; fo_fields := o_fields ty |}.

Definition spreadFormObj (i : string) (fd : FormObj) : ContentTypeObj :=
  {| o_id := default i (fo_id fd);
     o_name := fo_name fd;
     o_singularName := fo_singularName fd;
     o_pluralName := fo_pluralName fd;
     o_fields := fo_fields fd |}.

Definition with_formData (fd : FormObj) (c : BuilderObj) : BuilderObj :=
  {| bo_isModalOpen := bo_isModalOpen c;
     bo_editingType := bo_editingType c;
     bo_formData := fd |}.

Definition with_isModalOpen (v : bool) (c : BuilderObj) : BuilderObj :=
  {| bo_isModalOpen := v;
     bo_editingType := bo_editingType c;
     bo_formData := bo_formData c |}.

Definition with_component (c : BuilderObj) (p : BuilderPage) : BuilderPage :=
  {| fieldObjects := fieldObjects p; storedTypes := storedTypes p;
     component := c |}.

(** [handleSave] and the two cases of the reducer it reaches. *)
Definition handleSaveObj (now : Z) (p : BuilderPage) : BuilderPage :=
  let c := component p in
  {| fieldObjects := fieldObjects p;
     storedTypes :=
       match bo_editingType c with
       | Some et =>
           let payload := spreadFormObj (o_id et) (bo_formData c) in
           (λ ct, if decide (o_id ct = o_id payload) then payload else ct)
             <$> storedTypes p
       | None =>
           storedTypes p ++ [spreadFormObj (pretty now) (bo_formData c)]
       end;
     component :=
       {| bo_isModalOpen := false; bo_editingType := None;
          bo_formData := emptyFormObj |} |}.

(** The options of the type [select] of a field row. *)
Definition selectOptions : list FieldType :=
  [text; textarea; number; boolean; select].

(** What the user can do on the page.  The card buttons and the
    new-type button are always rendered; the controls of the dialog
    exist only while it is open. *)
Inductive BuilderEvent :=
  | ClickNew
  | ClickEdit (k : nat)
  | ClickClose
  | ChangeName (v : string)
  | ChangeSingularName (v : string)
  | ChangePluralName (v : string)
  | ClickAddField (now : Z)
  | ChangeFieldName (idx : nat) (v : string)
  | ChangeFieldType (idx : nat) (v : FieldType)
  | ClickSave (now : Z).

Definition whenOpen (p : BuilderPage) (result : option BuilderPage)
    : option BuilderPage :=
  if bo_isModalOpen (component p) then result else None.

Definition builderStep (p : BuilderPage) (ev : BuilderEvent)
    : option BuilderPage :=
  let c := component p in
  let fd := bo_formData c in
  match ev with
  | ClickNew => Some (with_component (with_isModalOpen true c) p)
  | ClickEdit k =>
      ty ← storedTypes p !! k;
      Some (with_component
              {| bo_isModalOpen := true; bo_editingType := Some ty;
                 bo_formData := formOfType ty |} p)
  | ClickClose =>
      whenOpen p (Some (with_component (with_isModalOpen false c) p))
  | ChangeName v =>
      whenOpen p
        (Some (with_component
                 (with_formData
                    {| fo_id := fo_id fd; fo_name := v;
                       fo_singularName := fo_singularName fd;
                       fo_pluralName := fo_pluralName fd;
                       fo_fields := fo_fields fd |} c) p))
  | ChangeSingularName v =>
      whenOpen p
        (Some (with_component
                 (with_formData
                    {| fo_id := fo_id fd; fo_name := fo_name fd;
                       fo_singularName := v;
                       fo_pluralName := fo_pluralName fd;
                       fo_fields := fo_fields fd |} c) p))
  | ChangePluralName v =>
      whenOpen p
        (Some (with_component
                 (with_formData
                    {| fo_id := fo_id fd; fo_name := fo_name fd;
                       fo_singularName := fo_singularName fd;
                       fo_pluralName := v;
                       fo_fields := fo_fields fd |} c) p))
  | ClickAddField now =>
      whenOpen p
        (Some {| fieldObjects :=
                   fieldObjects p
                     ++ [mkField (pretty now) "" text None None None];
                 storedTypes := storedTypes p;
                 component :=
                   with_formData
                     {| fo_id := fo_id fd; fo_name := fo_name fd;
                        fo_singularName := fo_singularName fd;
                        fo_pluralName := fo_pluralName fd;
                        fo_fields := fo_fields fd ++ [length (fieldObjects p)] |}
                     c |})
  | ChangeFieldName idx v =>
      whenOpen p
        (r ← fo_fields fd !! idx;
         f ← fieldObjects p !! r;
         Some {| fieldObjects :=
                   <[r := mkField (f_id f) v (f_type f) (f_required f)
                            (f_options f) (f_relation f)]> (fieldObjects p);
                 storedTypes := storedTypes p;
                 component := c |})
  | ChangeFieldType idx v =>
      whenOpen p
        (if decide (v ∈ selectOptions) then
           r ← fo_fields fd !! idx;
           f ← fieldObjects p !! r;
           Some {| fieldObjects :=
                     <[r := mkField (f_id f) (f_name f) v (f_required f)
                              (f_options f) (f_relation f)]> (fieldObjects p);
                   storedTypes := storedTypes p;
                   component := c |}
         else None)
  | ClickSave now => whenOpen p (Some (handleSaveObj now p))
  end.

Fixpoint builderRun (p : BuilderPage) (events : list BuilderEvent)
    : option BuilderPage :=
  match events with
  | [] => Some p
  | ev :: rest => p' ← builderStep p ev; builderRun p' rest
  end.

(** The page when the application starts: the field objects of the two
    initial content types, and the component's initial state. *)
Definition BuilderPage_initial : BuilderPage :=
  {| fieldObjects :=
       [ mkField "1" "title" text (Some true) None None;
         mkField "2" "content" textarea (Some true) None None;
         mkField "3" "published" boolean None None None;
         mkField "1" "name" text (Some true) None None;
         mkField "2" "price" number (Some true) None None;
         mkField "3" "description" textarea None None None ];
     storedTypes :=
       [ mkContentTypeObj "1" "Article" "article" "articles" [0; 1; 2]%nat;
         mkContentTypeObj "2" "Product" "product" "products" [3; 4; 5]%nat ];
     component :=
       {| bo_isModalOpen := false; bo_editingType := None;
          bo_formData := emptyFormObj |} |}.

(** Reading the objects as values. *)
Definition readFields (h : list Field) (rs : list nat) : list Field :=
  omap (λ r, h !! r) rs.

Definition readType (h : list Field) (ty : ContentTypeObj) : ContentType :=
  {| ct_id := o_id ty; ct_name := o_name ty;
     ct_singularName := o_singularName ty;
     ct_pluralName := o_pluralName ty;
     ct_fields := readFields h (o_fields ty) |}.

Definition readForm (h : list Field) (fd : FormObj) : FormData :=
  {| fd_id := fo_id fd; fd_name := fo_name fd;
     fd_singularName := fo_singularName fd;
     fd_pluralName := fo_pluralName fd;
     fd_fields := readFields h (fo_fields fd) |}.

Definition readBuilder (h : list Field) (c : BuilderObj) : Builder :=
  {| isModalOpen := bo_isModalOpen c;
     editingType := readType h <$> bo_editingType c;
     formData := readForm h (bo_formData c) |}.

(** The form carries an id exactly while a content type is being
    edited, and then it is that content type's. *)
Definition formIdMatches (p : BuilderPage) : Prop :=
  fo_id (bo_formData (component p))
  = o_id <$> bo_editingType (component p).

(** Every reference held by a stored content type or by the form
    points into the heap. *)
Definition refsValid (p : BuilderPage) : Prop :=
  Forall (λ ty, Forall (λ r, r < length (fieldObjects p))%nat (o_fields ty))
    (storedTypes p)
  ∧ Forall (λ r, r < length (fieldObjects p))%nat
      (fo_fields (bo_formData (component p))).

(** Outside edit mode the form shares no field object with the store. *)
Definition formIsPrivate (p : BuilderPage) : Prop :=
  bo_editingType (component p) = None →
  Forall (λ r, Forall (λ ty, r ∉ o_fields ty) (storedTypes p))
    (fo_fields (bo_formData (component p))).

(** * Properties *)

(** ** [switch] *)

(** Closes a decidable goal over concrete strings and lists by
    evaluation. *)
Ltac not_a_label :=
  apply (bool_decide_unpack _); vm_compute; exact I.

Lemma switch_default {A : Type} (x : string) (cases : list (string * A)) (d : A) :
  x ∉ cases.*1 → switch x cases d = d.
Proof.
  induction cases as [|[label body] rest IH]; simpl; [done|].
  intros Hx. apply not_elem_of_cons in Hx as [Hne Hrest].
  destruct (decide (x = label)); [done|]. by apply IH.
Qed.

Lemma switch_first {A : Type} (x : string) (body : A) (rest : list (string * A))
    (d : A) :
  switch x ((x, body) :: rest) d = body.
Proof. simpl. by destruct (decide (x = x)). Qed.

Lemma appCases_labels (state : AppState) (action : Action) :
  (appCases state action).*1 = appCaseLabels.
Proof. reflexivity. Qed.

Lemma uiCases_labels (state : UIState) (action : Action) :
  (uiCases state action).*1 = uiCaseLabels.
Proof. reflexivity. Qed.

(** ** The cases of the reducers, one equation each *)

Lemma appReducer_ADD_CONTENT_TYPE (state : AppState) (p : ContentType) :
  appReducer state {| type := "ADD_CONTENT_TYPE"; payload := PContentType p |}
  = Some (with_contentTypes (contentTypes state ++ [p]) state).
Proof. reflexivity. Qed.

Lemma appReducer_UPDATE_CONTENT_TYPE (state : AppState) (p : ContentType) :
  appReducer state (UPDATE_CONTENT_TYPE p)
  = Some (with_contentTypes
            ((λ ct, if decide (ct_id ct = ct_id p) then p else ct)
               <$> contentTypes state) state).
Proof. reflexivity. Qed.

Lemma appReducer_DELETE_CONTENT_TYPE (state : AppState) (i : string) :
  appReducer state (DELETE_CONTENT_TYPE i)
  = Some (with_contentTypes
            (filter (λ ct, ct_id ct ≠ i) (contentTypes state)) state).
Proof. reflexivity. Qed.

Lemma appReducer_ADD_ENTRY (state : AppState) (p : ContentEntry) :
  appReducer state (ADD_ENTRY p)
  = Some (with_entries (entries state ++ [p]) state).
Proof. reflexivity. Qed.

Lemma appReducer_UPDATE_ENTRY (state : AppState) (p : ContentEntry) :
  appReducer state (UPDATE_ENTRY p)
  = Some (with_entries
            ((λ e, if decide (e_id e = e_id p) then p else e)
               <$> entries state) state).
Proof. reflexivity. Qed.

Lemma uiReducer_SET_THEME (state : UIState) (v : string) :
  uiReducer state (SET_THEME v) = Some (with_theme v state).
Proof. reflexivity. Qed.

Lemma with_contentTypes_id (state : AppState) :
  with_contentTypes (contentTypes state) state = state.
Proof. by destruct state. Qed.

Lemma with_entries_id (state : AppState) :
  with_entries (entries state) state = state.
Proof. by destruct state. Qed.

(** ** Unhandled actions *)

Lemma appReducer_default (state : AppState) (action : Action) :
  type action ∉ appCaseLabels → appReducer state action = Some state.
Proof.
  intros Hty. unfold appReducer. apply switch_default.
  by rewrite appCases_labels.
Qed.

Lemma uiReducer_default (state : UIState) (action : Action) :
  type action ∉ uiCaseLabels → uiReducer state action = Some state.
Proof.
  intros Hty. unfold uiReducer. apply switch_default.
  by rewrite uiCases_labels.
Qed.

(** C10. An action whose [type] is none of the case labels of a reducer
    takes that reducer's [default] branch, which returns the state it was
    given: for the domain reducer and for the preferences reducer alike,
    whatever the payload. *)
Theorem unhandled_action_noop (action : Action) :
  (type action ∉ appCaseLabels → ∀ state, appReducer state action = Some state) ∧
  (type action ∉ uiCaseLabels → ∀ state, uiReducer state action = Some state).
Proof.
  split; intros Hty state.
  - by apply appReducer_default.
  - by apply uiReducer_default.
Qed.

(** The page selection that the sidebar dispatches is such an action for
    both reducers. *)
Lemma unhandled_action_noop_SET_PAGE :
  let action := {| type := "SET_PAGE"; payload := PString "media" |} in
  appReducer (AppProvider_initial "a" "b" "c" "d") action
    = Some (AppProvider_initial "a" "b" "c" "d")
  ∧ uiReducer (UIProvider_initial ∅) action = Some (UIProvider_initial ∅).
Proof.
  intros action. destruct (unhandled_action_noop action) as [Happ Hui].
  split; [apply Happ | apply Hui]; not_a_label.
Defined.

(** ** The theme button of the header *)

(** The case that flips the theme is spelt [TOGGE_TLHEME]: under that
    label the theme goes from ["light"] to ["dark"] and from anything
    else to ["light"], and no other field changes. *)
Lemma uiReducer_TOGGE_TLHEME (state : UIState) (p : Payload) :
  ∃ state', uiReducer state {| type := "TOGGE_TLHEME"; payload := p |} = Some state'
    ∧ theme state' = (if decide (theme state = "light") then "dark" else "light")
    ∧ direction state' = direction state
    ∧ sidebarOpen state' = sidebarOpen state
    ∧ loading state' = loading state
    ∧ error state' = error state.
Proof. eexists. split; [reflexivity|]. done. Qed.

(** The direction button next to it does reach its case. *)
Lemma Header_toggleDirection_toggles (state : UIState) :
  ∃ state', uiReducer state Header_toggleDirection = Some state'
    ∧ direction state' = (if decide (direction state = "ltr") then "rtl" else "ltr")
    ∧ theme state' = theme state
    ∧ sidebarOpen state' = sidebarOpen state
    ∧ loading state' = loading state
    ∧ error state' = error state.
Proof. eexists. split; [reflexivity|]. done. Qed.

(** C1. The header's theme button dispatches [TOGGLE_THEME]; the
    reducer has no case of that name, so the dispatch falls to [default]
    and the theme stays what it was: light stays light, dark stays dark. *)
Theorem Header_toggleTheme_changes_nothing (state : UIState) :
  uiReducer state Header_toggleTheme = Some state
  ∧ ∀ store, ∃ store',
      UIProvider_dispatch store Header_toggleTheme = Some store'
      ∧ theme (ui store') = theme (ui store)
      ∧ localStorage (browser store') = localStorage (browser store).
Proof.
  assert (Hnoop : ∀ s, uiReducer s Header_toggleTheme = Some s).
  { intros s. apply uiReducer_default. not_a_label. }
  split; [apply Hnoop|].
  intros store. unfold UIProvider_dispatch. rewrite Hnoop. simpl.
  eexists. split; [reflexivity|]. simpl.
  by rewrite !decide_True.
Qed.

(** ** List helpers *)

Lemma filter_all {A : Type} (P : A → Prop) `{!∀ x, Decision (P x)} (l : list A) :
  (∀ x, x ∈ l → P x) → filter P l = l.
Proof.
  induction l as [|a l IH]; intros Hall; [done|].
  rewrite filter_cons_True by (apply Hall; left).
  f_equal. apply IH. intros x Hx. apply Hall. by right.
Qed.

Lemma fmap_replace_absent {A : Type} (key : A → string) (p : A) (l : list A) :
  key p ∉ key <$> l →
  (λ x, if decide (key x = key p) then p else x) <$> l = l.
Proof.
  induction l as [|a l IH]; intros Habs; [done|].
  rewrite fmap_cons in Habs. apply not_elem_of_cons in Habs as [Hne Hrest].
  rewrite fmap_cons, IH by done.
  by rewrite decide_False by done.
Qed.

Lemma lookup_replace {A : Type} (key : A → string) (p : A) (l : list A)
    (i : nat) (x : A) :
  l !! i = Some x →
  ((λ x, if decide (key x = key p) then p else x) <$> l) !! i
  = Some (if decide (key x = key p) then p else x).
Proof. intros Hi. by rewrite list_lookup_fmap, Hi. Qed.

(** ** Deleting a content type *)

(** C5. [DELETE_CONTENT_TYPE] keeps the content types whose id differs
    from the payload: a second delete of the same id returns the state
    the first one returned, no remaining content type has that id, and
    when no content type had it in the first place the state comes back
    as it was; the reducer has a result in every case. *)
Theorem deleteSchema_idempotent (state : AppState) (i : string) :
  ∃ state1,
    appReducer state (DELETE_CONTENT_TYPE i) = Some state1
    ∧ appReducer state1 (DELETE_CONTENT_TYPE i) = Some state1
    ∧ (i ∉ (ct_id <$> contentTypes state1))
    ∧ (i ∉ (ct_id <$> contentTypes state) → state1 = state).
Proof.
  rewrite appReducer_DELETE_CONTENT_TYPE. eexists. split; [reflexivity|].
  assert (Hgone : ∀ ct, ct ∈ filter (λ ct, ct_id ct ≠ i) (contentTypes state)
                        → ct_id ct ≠ i).
  { intros ct Hct. by apply list_elem_of_filter in Hct as [? _]. }
  split; [|split].
  - rewrite appReducer_DELETE_CONTENT_TYPE. simpl.
    rewrite (filter_all _ _ Hgone). reflexivity.
  - simpl. intros Hin. apply list_elem_of_fmap in Hin as (ct & -> & Hct).
    by apply (Hgone ct).
  - intros Habs. rewrite filter_all; [apply with_contentTypes_id|].
    intros ct Hct Heq. apply Habs. rewrite <- Heq.
    by apply list_elem_of_fmap_2.
Qed.

(** On the initial state: deleting the absent id ["3"] changes nothing,
    once or twice. *)
Lemma deleteSchema_idempotent_absent_id :
  let state := AppProvider_initial "a" "b" "c" "d" in
  appReducer state (DELETE_CONTENT_TYPE "3") = Some state.
Proof.
  intros state.
  destruct (deleteSchema_idempotent state "3") as (state1 & H1 & _ & _ & Hsame).
  rewrite H1, Hsame; [reflexivity|]. not_a_label.
Defined.

(** ** Updating a content type *)

(** C4, as the reducer has it. [UPDATE_CONTENT_TYPE] with a payload
    whose id no content type carries returns the state it was given, so
    the collection keeps its length and its contents; what comes back is
    that state and nothing else. *)
Theorem updateSchema_absent_unchanged (state : AppState) (x : ContentType) :
  ct_id x ∉ (ct_id <$> contentTypes state) →
  ∃ state',
    appReducer state (UPDATE_CONTENT_TYPE x) = Some state'
    ∧ state' = state
    ∧ length (contentTypes state') = length (contentTypes state)
    ∧ contentTypes state' = contentTypes state.
Proof.
  intros Habs. rewrite appReducer_UPDATE_CONTENT_TYPE.
  rewrite (fmap_replace_absent ct_id) by done.
  rewrite with_contentTypes_id. by eexists.
Qed.

Lemma updateSchema_absent_unchanged_initial :
  let state := AppProvider_initial "a" "b" "c" "d" in
  ∃ state',
    appReducer state (UPDATE_CONTENT_TYPE (mkContentType "3" "Page" "page" "pages" []))
      = Some state'
    ∧ state' = state
    ∧ length (contentTypes state') = length (contentTypes state)
    ∧ contentTypes state' = contentTypes state.
Proof.
  intros state. apply updateSchema_absent_unchanged. not_a_label.
Defined.

(** C4, as stated, fails on the tagged result. On the initial state an
    update under the absent id ["3"] and an update that stores the
    content type ["1"] again return the very same value: nothing in
    what the reducer returns says whether the id was found. *)
Lemma updateSchema_absent_not_tagged :
  let state := AppProvider_initial "a" "b" "c" "d" in
  let absent := mkContentType "3" "Page" "page" "pages" [] in
  ∃ present,
    contentTypes state !! 0%nat = Some present
    ∧ ct_id present ∈ (ct_id <$> contentTypes state)
    ∧ (ct_id absent ∉ (ct_id <$> contentTypes state))
    ∧ appReducer state (UPDATE_CONTENT_TYPE absent)
      = appReducer state (UPDATE_CONTENT_TYPE present).
Proof.
  eexists. split; [reflexivity|].
  split; [apply (bool_decide_unpack _); vm_compute; exact I|].
  split; [not_a_label|]. reflexivity.
Qed.

(** Hence no function of the returned value is a NotFound tag. *)
Lemma appReducer_update_has_no_NotFound_tag :
  ¬ ∃ notFound : option AppState → bool,
      ∀ state x,
        notFound (appReducer state (UPDATE_CONTENT_TYPE x)) = true
        ↔ ct_id x ∉ (ct_id <$> contentTypes state).
Proof.
  intros [notFound Htag].
  pose (state := AppProvider_initial "a" "b" "c" "d").
  pose (absent := mkContentType "3" "Page" "page" "pages" []).
  pose (present := mkContentType "1" "Article" "article" "articles"
          [ mkField "1" "title" text (Some true) None None;
            mkField "2" "content" textarea (Some true) None None;
            mkField "3" "published" boolean None None None ]).
  assert (Habs : ct_id absent ∉ (ct_id <$> contentTypes state)) by not_a_label.
  assert (Hpre : ¬ (ct_id present ∉ (ct_id <$> contentTypes state))).
  { intros Hn. apply Hn. apply (bool_decide_unpack _). vm_compute. exact I. }
  apply Hpre. apply Htag.
  replace (appReducer state (UPDATE_CONTENT_TYPE present))
    with (appReducer state (UPDATE_CONTENT_TYPE absent)) by reflexivity.
  by apply Htag.
Qed.

(** ** Adding and updating an entry *)

Lemma shallowMerge_lookup (patch old : gmap string JsValue) (k : string) :
  shallowMerge patch old !! k
  = match patch !! k with Some v => Some v | None => old !! k end.
Proof.
  unfold shallowMerge. rewrite lookup_union.
  destruct (patch !! k), (old !! k); reflexivity.
Qed.

(** C2, as the reducer has it. [UPDATE_ENTRY] puts the payload in the
    place of every entry that has the payload's id: such an entry
    becomes the payload itself, data mapping and timestamps included,
    and nothing of the entry it replaces is kept.  The other entries,
    the order, the length and the rest of the state stay as they were,
    and when no entry has that id the state is returned unchanged. *)
Theorem updateEntry_replaces_wholesale (state : AppState) (p : ContentEntry) :
  ∃ state',
    appReducer state (UPDATE_ENTRY p) = Some state'
    ∧ length (entries state') = length (entries state)
    ∧ (∀ i e, entries state !! i = Some e →
         entries state' !! i = Some (if decide (e_id e = e_id p) then p else e))
    ∧ user state' = user state
    ∧ isAuthenticated state' = isAuthenticated state
    ∧ contentTypes state' = contentTypes state
    ∧ (e_id p ∉ (e_id <$> entries state) → state' = state).
Proof.
  rewrite appReducer_UPDATE_ENTRY. eexists. split; [reflexivity|]. simpl.
  split; [apply length_fmap|].
  split; [intros i e Hi; by apply (lookup_replace e_id)|].
  do 3 (split; [reflexivity|]).
  intros Habs. rewrite (fmap_replace_absent e_id) by done.
  apply with_entries_id.
Qed.

Lemma updateEntry_replaces_wholesale_initial :
  let state := AppProvider_initial "t1" "t2" "t3" "t4" in
  let p := {| e_id := "9"; e_contentType := "article"; e_status := draft;
              e_data := {[ "title" := JsString "Nine" ]};
              e_createdAt := "t5"; e_updatedAt := "t5" |} in
  appReducer state (UPDATE_ENTRY p) = Some state.
Proof.
  intros state p.
  destruct (updateEntry_replaces_wholesale state p)
    as (state' & Hred & _ & _ & _ & _ & _ & Hsame).
  rewrite Hred, Hsame; [reflexivity|]. not_a_label.
Defined.

(** C2, as stated, fails.  The draft entry ["2"] of the initial state
    holds the keys [title], [content] and [published]; an update whose
    data mapping has [title] alone, and whose [updatedAt] is the old
    one, leaves an entry without [content], where a shallow merge would
    have retained it, and with the timestamp it had before. *)
Lemma updateEntry_does_not_merge :
  let state := AppProvider_initial "t1" "t2" "t3" "t4" in
  let patch := {| e_id := "2"; e_contentType := "article"; e_status := draft;
                  e_data := {[ "title" := JsString "New title" ]};
                  e_createdAt := "t3"; e_updatedAt := "t4" |} in
  ∃ old new state',
    entries state !! 1%nat = Some old
    ∧ e_id old = e_id patch
    ∧ appReducer state (UPDATE_ENTRY patch) = Some state'
    ∧ entries state' !! 1%nat = Some new
    ∧ shallowMerge (e_data patch) (e_data old) !! "content"
      = Some (JsString "Work in progress")
    ∧ e_data new !! "content" = None
    ∧ e_updatedAt new = e_updatedAt old.
Proof.
  do 3 eexists. split; [reflexivity|]. split; [reflexivity|].
  split; [reflexivity|]. split; [reflexivity|].
  split; [vm_compute; reflexivity|]. split; [vm_compute; reflexivity|].
  reflexivity.
Qed.

(** C3, as the reducer has it.  When the payload is the draft entry
    itself with [status] set to [published] and [updatedAt] set by the
    caller, the entry stored afterwards differs from the one before in
    those two fields only; entries with another id and the content types
    are untouched. *)
Theorem publish_draft_changes_status_and_updatedAt
    (state : AppState) (i : nat) (e : ContentEntry) (now : string) :
  entries state !! i = Some e →
  e_status e = draft →
  ∃ state' e',
    appReducer state
      (UPDATE_ENTRY
         {| e_id := e_id e; e_contentType := e_contentType e;
            e_status := published; e_data := e_data e;
            e_createdAt := e_createdAt e; e_updatedAt := now |})
    = Some state'
    ∧ entries state' !! i = Some e'
    ∧ e_status e' = published
    ∧ e_status e' ≠ e_status e
    ∧ e_updatedAt e' = now
    ∧ e_id e' = e_id e
    ∧ e_contentType e' = e_contentType e
    ∧ e_data e' = e_data e
    ∧ e_createdAt e' = e_createdAt e
    ∧ (∀ j x, entries state !! j = Some x → e_id x ≠ e_id e →
         entries state' !! j = Some x)
    ∧ length (entries state') = length (entries state)
    ∧ contentTypes state' = contentTypes state.
Proof.
  intros Hi Hdraft. rewrite appReducer_UPDATE_ENTRY. do 2 eexists.
  split; [reflexivity|]. simpl.
  split.
  { rewrite list_lookup_fmap, Hi. simpl.
    rewrite decide_True by reflexivity. reflexivity. }
  split; [reflexivity|]. split; [simpl; by rewrite Hdraft|].
  do 5 (split; [reflexivity|]).
  split; [|split; [apply length_fmap|reflexivity]].
  intros j x Hj Hne. rewrite list_lookup_fmap, Hj. simpl.
  by rewrite decide_False.
Qed.

Lemma publish_draft_initial :
  let state := AppProvider_initial "t1" "t2" "t3" "t4" in
  ∃ state' e',
    appReducer state
      (UPDATE_ENTRY
         {| e_id := "2"; e_contentType := "article"; e_status := published;
            e_data :=
              {[ "title" := JsString "Draft Article";
                 "content" := JsString "Work in progress";
                 "published" := JsBool false ]};
            e_createdAt := "t3"; e_updatedAt := "t5" |})
    = Some state'
    ∧ entries state' !! 1%nat = Some e'
    ∧ e_status e' = published
    ∧ e_updatedAt e' = "t5"
    ∧ e_createdAt e' = "t3".
Proof.
  intros state.
  destruct (publish_draft_changes_status_and_updatedAt state 1
              {| e_id := "2"; e_contentType := "article"; e_status := draft;
                 e_data :=
                   {[ "title" := JsString "Draft Article";
                      "content" := JsString "Work in progress";
                      "published" := JsBool false ]};
                 e_createdAt := "t3"; e_updatedAt := "t4" |} "t5"
              eq_refl eq_refl)
    as (state' & e' & Hred & Hi & Hst & _ & Hup & _ & _ & _ & Hcr & _).
  exists state', e'. simpl in *. by repeat split.
Defined.

(** C3, as stated, fails.  The payload is all the reducer stores: a
    payload that carries the id and the new status, and nothing of the
    stored entry besides, leaves an entry whose content type, data and
    creation time are the payload's, not the draft's. *)
Lemma publish_patch_overwrites_other_fields :
  let state := AppProvider_initial "t1" "t2" "t3" "t4" in
  let patch := {| e_id := "2"; e_contentType := ""; e_status := published;
                  e_data := ∅; e_createdAt := ""; e_updatedAt := "t5" |} in
  ∃ old new state',
    entries state !! 1%nat = Some old
    ∧ e_status old = draft
    ∧ e_id patch = e_id old
    ∧ appReducer state (UPDATE_ENTRY patch) = Some state'
    ∧ entries state' !! 1%nat = Some new
    ∧ e_status new = published
    ∧ (e_data old !! "title" = Some (JsString "Draft Article")
       ∧ e_data new !! "title" = None)
    ∧ (e_contentType old = "article" ∧ e_contentType new = "")
    ∧ (e_createdAt old = "t3" ∧ e_createdAt new = "").
Proof.
  do 3 eexists. do 6 (split; [reflexivity|]).
  split; [split; vm_compute; reflexivity|].
  split; split; reflexivity.
Qed.

(** C7, as the reducer has it.  [ADD_ENTRY] appends the payload, as it
    is, at the end of the entry collection: the length grows by one, the
    entries already there keep their places, the last entry is the
    payload (its id, status and timestamps are the ones the caller put
    in it), and the rest of the state is unchanged. *)
Theorem createEntry_appends_payload (state : AppState) (p : ContentEntry) :
  ∃ state',
    appReducer state (ADD_ENTRY p) = Some state'
    ∧ entries state' = (entries state ++ [p])%list
    ∧ length (entries state') = S (length (entries state))
    ∧ (∀ i e, entries state !! i = Some e → entries state' !! i = Some e)
    ∧ entries state' !! (length (entries state)) = Some p
    ∧ user state' = user state
    ∧ isAuthenticated state' = isAuthenticated state
    ∧ contentTypes state' = contentTypes state.
Proof.
  rewrite appReducer_ADD_ENTRY. eexists. split; [reflexivity|]. simpl.
  split; [reflexivity|].
  split; [rewrite length_app; simpl; lia|].
  split; [intros i e Hi; by apply lookup_app_l_Some|].
  split; [|done].
  rewrite lookup_app_r by lia. by rewrite Nat.sub_diag.
Qed.

(** C7, as stated, fails.  A payload with the id of an entry that is
    already stored, the status [published] and two different timestamps
    is appended as it is: the new entry is no draft, its id is not
    fresh, and its creation and update times differ. *)
Lemma createEntry_assigns_nothing :
  let state := AppProvider_initial "t1" "t2" "t3" "t4" in
  let p := {| e_id := "1"; e_contentType := "article"; e_status := published;
              e_data := {[ "title" := JsString "Hello" ]};
              e_createdAt := "t5"; e_updatedAt := "t6" |} in
  ∃ state' new,
    appReducer state (ADD_ENTRY p) = Some state'
    ∧ entries state' !! (length (entries state)) = Some new
    ∧ e_status new = published
    ∧ e_status new ≠ draft
    ∧ e_id new ∈ (e_id <$> entries state)
    ∧ e_createdAt new ≠ e_updatedAt new.
Proof.
  do 2 eexists. do 3 (split; [reflexivity|]).
  split; [discriminate|].
  split; [apply (bool_decide_unpack _); vm_compute; exact I|].
  discriminate.
Qed.

(** ** The preferences at startup *)

Lemma orDefault_absent (d : string) : orDefault None d = d.
Proof. reflexivity. Qed.

Lemma orDefault_empty (d : string) : orDefault (Some "") d = d.
Proof. reflexivity. Qed.

Lemma orDefault_nonempty (v d : string) : v ≠ "" → orDefault (Some v) d = v.
Proof. intros Hv. unfold orDefault. by rewrite decide_False. Qed.

(** C8, as the provider has it.  The initial theme is ["light"] when
    the key [theme] is absent or holds the empty string, and otherwise
    the stored string itself, whatever it is; likewise the direction
    with ["ltr"].  So both are members of their enumerations whenever
    each stored value is absent, empty or a member already.  The initial
    state exists for every content of the storage, with the sidebar
    open, nothing loading and no error. *)
Theorem UIProvider_initial_from_storage (ls : gmap string string) :
  (ls !! "theme" = None ∨ ls !! "theme" = Some "" →
     theme (UIProvider_initial ls) = "light")
  ∧ (∀ v, ls !! "theme" = Some v → v ≠ "" → theme (UIProvider_initial ls) = v)
  ∧ (ls !! "direction" = None ∨ ls !! "direction" = Some "" →
     direction (UIProvider_initial ls) = "ltr")
  ∧ (∀ v, ls !! "direction" = Some v → v ≠ "" →
     direction (UIProvider_initial ls) = v)
  ∧ ((∀ v, ls !! "theme" = Some v → v = "" ∨ isTheme v) →
     isTheme (theme (UIProvider_initial ls)))
  ∧ ((∀ v, ls !! "direction" = Some v → v = "" ∨ isDirection v) →
     isDirection (direction (UIProvider_initial ls)))
  ∧ sidebarOpen (UIProvider_initial ls) = true
  ∧ loading (UIProvider_initial ls) = false
  ∧ error (UIProvider_initial ls) = None.
Proof.
  unfold UIProvider_initial, getItem. simpl.
  split; [by intros [-> | ->]|].
  split; [intros v -> Hv; by apply orDefault_nonempty|].
  split; [by intros [-> | ->]|].
  split; [intros v -> Hv; by apply orDefault_nonempty|].
  split.
  { intros Hok. destruct (ls !! "theme") as [v|]; [|by left].
    destruct (decide (v = "")) as [->|Hv]; [by left|].
    rewrite orDefault_nonempty by done.
    destruct (Hok v eq_refl) as [?|?]; [done|done]. }
  split; [|done].
  intros Hok. destruct (ls !! "direction") as [v|]; [|by left].
  destruct (decide (v = "")) as [->|Hv]; [by left|].
  rewrite orDefault_nonempty by done.
  destruct (Hok v eq_refl) as [?|?]; [done|done].
Qed.

Lemma UIProvider_initial_from_storage_dark :
  let ls : gmap string string := {[ "theme" := "dark"; "direction" := "" ]} in
  theme (UIProvider_initial ls) = "dark"
  ∧ direction (UIProvider_initial ls) = "ltr"
  ∧ isTheme (theme (UIProvider_initial ls))
  ∧ isDirection (direction (UIProvider_initial ls)).
Proof.
  intros ls.
  destruct (UIProvider_initial_from_storage ls)
    as (_ & Hth & Hdir & _ & HisT & HisD & _).
  split; [apply Hth; [vm_compute; reflexivity | discriminate]|].
  split; [apply Hdir; right; vm_compute; reflexivity|].
  split.
  - apply HisT. intros v Hv.
    assert (v = "dark") as -> by (vm_compute in Hv; congruence).
    right. by right.
  - apply HisD. intros v Hv.
    assert (v = "") as -> by (vm_compute in Hv; congruence).
    by left.
Defined.

(** C8, as stated, fails.  A stored theme ["blue"] and a stored
    direction ["up"] are neither absent nor empty, so they are taken as
    they are: the initial theme is ["blue"], the initial direction
    ["up"], outside the two enumerations. *)
Lemma UIProvider_initial_keeps_malformed :
  let ls : gmap string string := {[ "theme" := "blue"; "direction" := "up" ]} in
  theme (UIProvider_initial ls) = "blue"
  ∧ ¬ isTheme (theme (UIProvider_initial ls))
  ∧ direction (UIProvider_initial ls) = "up"
  ∧ ¬ isDirection (direction (UIProvider_initial ls)).
Proof.
  intros ls.
  split; [vm_compute; reflexivity|].
  split; [intros [H|H]; vm_compute in H; discriminate|].
  split; [vm_compute; reflexivity|].
  intros [H|H]; vm_compute in H; discriminate.
Qed.

(** ** Persistence of the theme *)

Lemma UIProvider_mount_persisted (b : Browser) : persisted (UIProvider_mount b).
Proof.
  split; simpl; unfold setItem.
  - rewrite lookup_insert_ne by discriminate. apply lookup_insert_eq.
  - apply lookup_insert_eq.
Qed.

Lemma UIProvider_dispatch_persisted (store store' : UIStore) (action : Action) :
  persisted store →
  UIProvider_dispatch store action = Some store' →
  persisted store'.
Proof.
  intros [Hth Hdir]. unfold UIProvider_dispatch.
  destruct (uiReducer (ui store) action) as [state'|]; [|discriminate].
  simpl. intros [= <-]. split; simpl.
  - destruct (decide (direction state' = direction (ui store)));
      destruct (decide (theme state' = theme (ui store))) as [Heq|?]; simpl;
      unfold setItem; rewrite ?lookup_insert_ne by discriminate;
      rewrite ?lookup_insert_eq; try done.
    + by rewrite Heq.
    + by rewrite Heq.
  - destruct (decide (direction state' = direction (ui store))) as [Heq|?];
      destruct (decide (theme state' = theme (ui store))); simpl;
      unfold setItem; rewrite ?lookup_insert_eq;
      rewrite ?lookup_insert_ne by discriminate; try done.
    + by rewrite Heq.
    + by rewrite Heq.
Qed.

Lemma UIProvider_run_persisted (actions : list Action) (store store' : UIStore) :
  persisted store →
  UIProvider_run store actions = Some store' →
  persisted store'.
Proof.
  revert store. induction actions as [|a rest IH]; intros store Hp; simpl.
  - by intros [= <-].
  - destruct (UIProvider_dispatch store a) as [store1|] eqn:Hd; [|discriminate].
    simpl. apply IH. by eapply UIProvider_dispatch_persisted.
Qed.

(** C9. Whatever the browser held when the provider mounted and
    whatever was dispatched since, dispatching [SET_THEME] with ["dark"]
    gives a state whose theme is ["dark"] and leaves ["dark"] under the
    key [theme] of [localStorage]; a provider that starts again on a
    browser with that storage has the initial theme ["dark"]. *)
Theorem theme_dark_round_trip
    (b : Browser) (actions : list Action) (store : UIStore) :
  UIProvider_run (UIProvider_mount b) actions = Some store →
  ∃ store',
    UIProvider_dispatch store (SET_THEME "dark") = Some store'
    ∧ theme (ui store') = "dark"
    ∧ getItem "theme" (localStorage (browser store')) = Some "dark"
    ∧ ∀ b', localStorage b' = localStorage (browser store') →
        theme (UIProvider_initial (localStorage b')) = "dark"
        ∧ theme (ui (UIProvider_mount b')) = "dark".
Proof.
  intros Hrun.
  assert (Hp : persisted store).
  { eapply UIProvider_run_persisted; [apply UIProvider_mount_persisted|done]. }
  destruct (UIProvider_dispatch store (SET_THEME "dark")) as [store'|] eqn:Hd;
    [|by unfold UIProvider_dispatch in Hd; rewrite uiReducer_SET_THEME in Hd].
  assert (Hp' : persisted store') by (by eapply UIProvider_dispatch_persisted).
  assert (Hth : theme (ui store') = "dark").
  { unfold UIProvider_dispatch in Hd. rewrite uiReducer_SET_THEME in Hd.
    simpl in Hd. by injection Hd as <-. }
  exists store'. split; [done|]. split; [done|].
  destruct Hp' as [Hls _]. rewrite Hth in Hls.
  split; [exact Hls|].
  intros b' Hsame.
  unfold UIProvider_mount, UIProvider_initial, getItem. simpl.
  rewrite Hsame, Hls. split; reflexivity.
Qed.

Lemma theme_dark_round_trip_from_light :
  let b := {| localStorage := {[ "theme" := "light" ]};
              darkClass := false; dir := "ltr" |} in
  ∃ store',
    UIProvider_dispatch (UIProvider_mount b) (SET_THEME "dark") = Some store'
    ∧ theme (ui store') = "dark"
    ∧ getItem "theme" (localStorage (browser store')) = Some "dark"
    ∧ theme (ui (UIProvider_mount (browser store'))) = "dark".
Proof.
  intros b.
  destruct (theme_dark_round_trip b [] (UIProvider_mount b) eq_refl)
    as (store' & Hd & Hth & Hls & Hre).
  exists store'. repeat split; try done.
  by apply (Hre (browser store')).
Defined.

(** ** Defining content types *)

Lemma defineSchema_eq (now : Z) (input : FormData) (state : AppState) :
  defineSchema now input state
  = Some (with_contentTypes
            (contentTypes state ++ [spreadForm (pretty now) input]) state).
Proof. reflexivity. Qed.

Lemma spreadForm_id (i : string) (fd : FormData) :
  fd_id fd = None → ct_id (spreadForm i fd) = i.
Proof. intros Hid. unfold spreadForm. simpl. by rewrite Hid. Qed.

Lemma defineSchemas_appends (calls : list (Z * FormData)) (state : AppState) :
  ∃ state',
    defineSchemas calls state = Some state'
    ∧ contentTypes state'
      = (contentTypes state
           ++ ((λ c, spreadForm (pretty c.1) c.2) <$> calls))%list
    ∧ entries state' = entries state.
Proof.
  revert state. induction calls as [|[now input] rest IH]; intros state;
    cbn [defineSchemas].
  - exists state. by rewrite app_nil_r.
  - rewrite defineSchema_eq. cbn [mbind option_bind].
    destruct (IH (with_contentTypes
                    (contentTypes state ++ [spreadForm (pretty now) input]) state))
      as (state' & Hrun & Hcts & Hes).
    exists state'. split; [done|]. split; [|done].
    rewrite Hcts. simpl. by rewrite <- app_assoc.
Qed.

Lemma defined_ids (calls : list (Z * FormData)) :
  Forall (λ c, fd_id c.2 = None) calls →
  ct_id <$> ((λ c, spreadForm (pretty c.1) c.2) <$> calls)
  = pretty <$> calls.*1.
Proof.
  induction 1 as [|[now input] rest Hid _ IH]; [done|].
  rewrite !fmap_cons, IH. f_equal. by apply spreadForm_id.
Qed.

(** C6, as the handler has it.  Every sequence of saves of new content
    types has a result; each save appends one content type, so the
    collection grows by exactly one per call, and the entries are not
    touched.  When the forms carry no id of their own (the form state
    has one only while a content type is being edited), the id of the
    content type a call stores is the decimal string of the clock
    reading at that call.  It then differs from the id of every other
    content type of the collection when the readings of the calls are
    pairwise different and none of them, as a string, is an id the
    collection had at the start. *)
Theorem defineSchemas_length_and_ids
    (calls : list (Z * FormData)) (state : AppState) :
  ∃ state' new,
    defineSchemas calls state = Some state'
    ∧ contentTypes state' = (contentTypes state ++ new)%list
    ∧ length new = length calls
    ∧ length (contentTypes state')
      = (length (contentTypes state) + length calls)%nat
    ∧ entries state' = entries state
    ∧ (Forall (λ c, fd_id c.2 = None) calls →
       ct_id <$> new = pretty <$> calls.*1)
    ∧ (Forall (λ c, fd_id c.2 = None) calls →
       NoDup calls.*1 →
       (∀ now, now ∈ calls.*1 → pretty now ∉ (ct_id <$> contentTypes state)) →
       ∀ i j a b,
         new !! i = Some a →
         contentTypes state' !! j = Some b →
         j ≠ (length (contentTypes state) + i)%nat →
         ct_id a ≠ ct_id b).
Proof.
  destruct (defineSchemas_appends calls state) as (state' & Hrun & Hcts & Hes).
  exists state', ((λ c, spreadForm (pretty c.1) c.2) <$> calls).
  split; [done|]. split; [done|].
  split; [apply length_fmap|].
  split; [by rewrite Hcts, length_app, length_fmap|].
  split; [done|].
  split; [apply defined_ids|].
  intros Hnoid Hnodup Hfresh i j a b Hi Hj Hij Heq.
  pose proof (defined_ids calls Hnoid) as Hids.
  assert (Hia : (pretty <$> calls.*1) !! i = Some (ct_id a)).
  { rewrite <- Hids, list_lookup_fmap, Hi. reflexivity. }
  apply list_lookup_fmap_Some in Hia as (ni & Hnia & Hni).
  rewrite Hcts in Hj. apply lookup_app_Some in Hj as [Hj | [Hge Hj]].
  - apply (Hfresh ni); [by eapply list_elem_of_lookup_2|].
    rewrite <- Hnia, Heq. apply list_elem_of_fmap_2.
    by eapply list_elem_of_lookup_2.
  - assert (Hjb : (pretty <$> calls.*1) !! (j - length (contentTypes state))%nat
                  = Some (ct_id b)).
    { rewrite <- Hids, list_lookup_fmap, Hj. reflexivity. }
    apply list_lookup_fmap_Some in Hjb as (nj & Hnjb & Hnj).
    assert (ni = nj) as <-.
    { apply (inj (pretty : Z → string)). congruence. }
    pose proof (NoDup_lookup _ _ _ _ Hnodup Hni Hnj). lia.
Qed.

Lemma defineSchemas_two_calls :
  let state := AppProvider_initial "t1" "t2" "t3" "t4" in
  let calls := [ (1700000000000, mkFormData None "Page" "page" "pages" []);
                 (1700000000001, mkFormData None "Tag" "tag" "tags" []) ] in
  ∃ state' a b,
    defineSchemas calls state = Some state'
    ∧ length (contentTypes state') = 4%nat
    ∧ contentTypes state' !! 2%nat = Some a
    ∧ contentTypes state' !! 3%nat = Some b
    ∧ ct_id a ≠ ct_id b.
Proof.
  intros state calls.
  destruct (defineSchemas_length_and_ids calls state)
    as (state' & new & Hrun & Hcts & Hlen & Hlen' & _ & _ & Hdistinct).
  destruct new as [|a [|b [|? ?]]]; try discriminate Hlen.
  exists state', a, b. rewrite Hcts.
  split; [done|]. do 3 (split; [reflexivity|]).
  assert (Hnoid : Forall (λ c : Z * FormData, fd_id c.2 = None) calls)
    by (repeat constructor).
  assert (Hnodup : NoDup calls.*1)
    by (apply (bool_decide_unpack _); vm_compute; exact I).
  assert (Hfresh : ∀ now, now ∈ calls.*1 →
                     pretty now ∉ (ct_id <$> contentTypes state)).
  { intros now Hnow. simpl in Hnow.
    apply elem_of_cons in Hnow as [->|Hnow]; [not_a_label|].
    apply list_elem_of_singleton in Hnow as ->. not_a_label. }
  apply (Hdistinct Hnoid Hnodup Hfresh 0%nat 3%nat a b);
    [reflexivity | by rewrite Hcts | discriminate].
Defined.

(** C6, as stated, fails.  Two saves at the same clock reading store
    two content types with the same id. *)
Lemma defineSchemas_same_clock_same_id :
  let state := AppProvider_initial "t1" "t2" "t3" "t4" in
  let calls := [ (1700000000000, mkFormData None "Page" "page" "pages" []);
                 (1700000000000, mkFormData None "Tag" "tag" "tags" []) ] in
  ∃ state' a b,
    defineSchemas calls state = Some state'
    ∧ contentTypes state' !! 2%nat = Some a
    ∧ contentTypes state' !! 3%nat = Some b
    ∧ ct_name a = "Page" ∧ ct_name b = "Tag"
    ∧ ct_id a = "1700000000000"
    ∧ ct_id a = ct_id b.
Proof.
  do 3 eexists. split; [reflexivity|].
  do 2 (split; [reflexivity|]). do 2 (split; [reflexivity|]).
  split; vm_compute; reflexivity.
Qed.

(** * Further properties of the domain store *)

(** Case analysis on a dispatched action: [by_label] splits on the
    label, [switch_label] selects its case. *)
Ltac switch_label H :=
  unfold appReducer, uiReducer, appCases, uiCases in H;
  cbn [switch type payload] in H;
  repeat first [ rewrite decide_True in H by reflexivity
               | rewrite decide_False in H by discriminate ].

Ltac by_label Hin :=
  unfold appCaseLabels, uiCaseLabels in Hin;
  repeat (apply elem_of_cons in Hin as [->|Hin]);
  [ .. | by apply elem_of_nil in Hin ].

Lemma fmap_replace_keys {A : Type} (key : A → string) (p : A) (l : list A) :
  key <$> ((λ x, if decide (key x = key p) then p else x) <$> l) = key <$> l.
Proof.
  induction l as [|a l IH]; [done|].
  rewrite !fmap_cons, IH. f_equal. by destruct (decide (key a = key p)).
Qed.

Lemma NoDup_keys_filter {A : Type} (key : A → string) (P : A → Prop)
    `{!∀ x, Decision (P x)} (l : list A) :
  NoDup (key <$> l) → NoDup (key <$> filter P l).
Proof.
  intros Hnd. eapply sublist_NoDup; [exact Hnd|].
  apply fmap_sublist. by apply sublist_filter.
Qed.

Lemma filter_key_length {A : Type} (key : A → string) (i : string) (l : list A) :
  NoDup (key <$> l) → i ∈ key <$> l →
  S (length (filter (λ x, key x ≠ i) l)) = length l.
Proof.
  induction l as [|a l IH]; intros Hnd Hin; [by apply elem_of_nil in Hin|].
  rewrite fmap_cons in Hnd, Hin. apply NoDup_cons in Hnd as [Hna Hnd].
  destruct (decide (key a = i)) as [<-|Hne].
  - rewrite filter_cons_False by (intros Hn; by apply Hn).
    rewrite filter_all; [done|].
    intros x Hx Heq. apply Hna. rewrite <- Heq. by apply list_elem_of_fmap_2.
  - rewrite filter_cons_True by done. simpl. f_equal. apply IH; [done|].
    apply elem_of_cons in Hin as [Heq|Hin]; [by symmetry in Heq|done].
Qed.

(** X1. Each of the three parts of the state changes only under its
    own actions: the user and the authentication flag under [LOGIN] and
    [LOGOUT], the content types under the four content-type actions,
    the entries under the four entry actions.  In particular deleting a
    content type removes no entry, and signing out clears no content. *)
Theorem appReducer_frame (state state' : AppState) (action : Action) :
  appReducer state action = Some state' →
  (type action ∉ ["LOGIN"; "LOGOUT"] →
     user state' = user state ∧ isAuthenticated state' = isAuthenticated state)
  ∧ (type action ∉ ["SET_CONTENT_TYPES"; "ADD_CONTENT_TYPE";
                    "UPDATE_CONTENT_TYPE"; "DELETE_CONTENT_TYPE"] →
     contentTypes state' = contentTypes state)
  ∧ (type action ∉ ["SET_ENTRIES"; "ADD_ENTRY"; "UPDATE_ENTRY"; "DELETE_ENTRY"] →
     entries state' = entries state).
Proof.
  intros Hred. destruct action as [ty p]. cbn [type].
  destruct (decide (ty ∈ appCaseLabels)) as [Hin|Hout].
  - by_label Hin; switch_label Hred; destruct p; simplify_eq/=;
      (split; [|split]); intros Hn;
      first [ done | exfalso; apply Hn; not_a_label ].
  - rewrite appReducer_default in Hred by done. by simplify_eq.
Qed.

Lemma appReducer_frame_delete_type :
  let state := AppProvider_initial "t1" "t2" "t3" "t4" in
  ∃ state',
    appReducer state (DELETE_CONTENT_TYPE "1") = Some state'
    ∧ length (contentTypes state') = 1%nat
    ∧ entries state' = entries state
    ∧ user state' = user state.
Proof.
  intros state. eexists. split; [reflexivity|]. split; [reflexivity|].
  destruct (appReducer_frame state _ (DELETE_CONTENT_TYPE "1") eq_refl)
    as (Huser & _ & Hentries).
  split; [apply Hentries | apply Huser]; not_a_label.
Defined.

(** X2. [UPDATE_CONTENT_TYPE] never changes which ids the collection
    holds, nor their order: every content type with the payload's id
    becomes the payload, the others stay.  When the ids are unique, at
    most the one position that carries the payload's id changes. *)
Theorem updateSchema_keeps_ids (state : AppState) (p : ContentType) :
  ∃ state',
    appReducer state (UPDATE_CONTENT_TYPE p) = Some state'
    ∧ ct_id <$> contentTypes state' = ct_id <$> contentTypes state
    ∧ (∀ i ct, contentTypes state !! i = Some ct →
         contentTypes state' !! i
         = Some (if decide (ct_id ct = ct_id p) then p else ct))
    ∧ (NoDup (ct_id <$> contentTypes state) →
       ∀ i j ct, contentTypes state !! i = Some ct → ct_id ct = ct_id p →
         j ≠ i → contentTypes state' !! j = contentTypes state !! j).
Proof.
  rewrite appReducer_UPDATE_CONTENT_TYPE. eexists. split; [reflexivity|].
  cbn [contentTypes with_contentTypes].
  split; [apply fmap_replace_keys|].
  split; [intros i ct Hi; by apply (lookup_replace ct_id)|].
  intros Hnd i j ct Hi Hid Hji. rewrite list_lookup_fmap.
  destruct (contentTypes state !! j) as [c|] eqn:Hj; [|done]. simpl.
  destruct (decide (ct_id c = ct_id p)) as [Hc|]; [|done].
  exfalso. apply Hji.
  apply (NoDup_lookup _ j i (ct_id p) Hnd); rewrite list_lookup_fmap.
  - by rewrite Hj, <- Hc.
  - by rewrite Hi, <- Hid.
Qed.

Lemma updateSchema_keeps_ids_initial :
  let state := AppProvider_initial "t1" "t2" "t3" "t4" in
  ∃ state',
    appReducer state
      (UPDATE_CONTENT_TYPE (mkContentType "1" "Post" "post" "posts" []))
    = Some state'
    ∧ ct_name <$> contentTypes state' !! 0%nat = Some "Post"
    ∧ contentTypes state' !! 1%nat = contentTypes state !! 1%nat.
Proof.
  intros state.
  destruct (updateSchema_keeps_ids state
              (mkContentType "1" "Post" "post" "posts" []))
    as (state' & Hred & _ & Hat & Hother).
  exists state'. split; [exact Hred|].
  split; [by rewrite (Hat 0%nat _ eq_refl)|].
  assert (Hnd : NoDup (ct_id <$> contentTypes state))
    by (apply (bool_decide_unpack _); vm_compute; exact I).
  apply (Hother Hnd 0%nat 1%nat _ eq_refl eq_refl). discriminate.
Defined.

(** X3. [DELETE_ENTRY] removes every entry with the given id and
    nothing else: the entries left are exactly those with another id,
    in their old order; a second delete changes nothing more.  The
    collection never grows, and when the ids were unique and the id was
    there it shrinks by exactly one. *)
Theorem deleteEntry_removes (state : AppState) (i : string) :
  ∃ state',
    appReducer state (DELETE_ENTRY i) = Some state'
    ∧ (∀ e, e ∈ entries state' ↔ e ∈ entries state ∧ e_id e ≠ i)
    ∧ entries state' `sublist_of` entries state
    ∧ (length (entries state') ≤ length (entries state))%nat
    ∧ (NoDup (e_id <$> entries state) → i ∈ (e_id <$> entries state) →
       S (length (entries state')) = length (entries state))
    ∧ (i ∉ (e_id <$> entries state) → state' = state)
    ∧ appReducer state' (DELETE_ENTRY i) = Some state'
    ∧ contentTypes state' = contentTypes state.
Proof.
  eexists. split; [reflexivity|]. cbn [entries with_entries].
  split; [intros e; rewrite list_elem_of_filter; tauto|].
  split; [apply sublist_filter|].
  split; [apply length_filter|].
  split; [apply (filter_key_length e_id)|].
  split.
  { intros Habs. rewrite filter_all; [apply with_entries_id|].
    intros e He Heq. apply Habs. rewrite <- Heq. by apply list_elem_of_fmap_2. }
  split; [|reflexivity].
  change (Some (with_entries
                  (filter (λ e, e_id e ≠ i) (filter (λ e, e_id e ≠ i) (entries state)))
                  (with_entries (filter (λ e, e_id e ≠ i) (entries state)) state))
          = Some (with_entries (filter (λ e, e_id e ≠ i) (entries state)) state)).
  rewrite (filter_all _ (filter _ _)); [done|].
  intros e He. by apply list_elem_of_filter in He as [? _].
Qed.

Lemma deleteEntry_removes_initial :
  let state := AppProvider_initial "t1" "t2" "t3" "t4" in
  ∃ state',
    appReducer state (DELETE_ENTRY "1") = Some state'
    ∧ S (length (entries state')) = length (entries state).
Proof.
  intros state.
  destruct (deleteEntry_removes state "1")
    as (state' & Hred & _ & _ & _ & Hone & _).
  exists state'. split; [exact Hred|].
  apply Hone; apply (bool_decide_unpack _); vm_compute; exact I.
Defined.

(** X4. Adding under a fresh id and then deleting that id gives the
    state back, for entries and for content types alike.  When the id
    was in the collection already, the delete takes the older entries
    with that id as well, and the collection ends up shorter than it
    was before the add. *)
Theorem add_then_delete (state : AppState) :
  (∀ p, e_id p ∉ (e_id <$> entries state) →
     appRun state [ADD_ENTRY p; DELETE_ENTRY (e_id p)] = Some state)
  ∧ (∀ ct, ct_id ct ∉ (ct_id <$> contentTypes state) →
     appRun state [ADD_CONTENT_TYPE ct; DELETE_CONTENT_TYPE (ct_id ct)]
     = Some state)
  ∧ (∀ p, e_id p ∈ (e_id <$> entries state) →
     ∃ state',
       appRun state [ADD_ENTRY p; DELETE_ENTRY (e_id p)] = Some state'
       ∧ (length (entries state') < length (entries state))%nat).
Proof.
  split; [|split].
  - intros p Hfresh. cbn [appRun]. rewrite appReducer_ADD_ENTRY.
    change (Some (with_entries
                    (filter (λ e, e_id e ≠ e_id p) (entries state ++ [p])%list) state)
            = Some state).
    rewrite filter_app, filter_cons_False, filter_nil, app_nil_r
      by (intros Hn; by apply Hn).
    rewrite filter_all; [by rewrite with_entries_id|].
    intros e He Heq. apply Hfresh. rewrite <- Heq. by apply list_elem_of_fmap_2.
  - intros ct Hfresh. cbn [appRun].
    change (Some (with_contentTypes
                    (filter (λ c, ct_id c ≠ ct_id ct) (contentTypes state ++ [ct])%list)
                    state)
            = Some state).
    rewrite filter_app, filter_cons_False, filter_nil, app_nil_r
      by (intros Hn; by apply Hn).
    rewrite filter_all; [by rewrite with_contentTypes_id|].
    intros c Hc Heq. apply Hfresh. rewrite <- Heq. by apply list_elem_of_fmap_2.
  - intros p Hin. eexists. split; [reflexivity|].
    cbn [entries with_entries].
    rewrite filter_app, filter_cons_False, filter_nil, app_nil_r
      by (intros Hn; by apply Hn).
    apply list_elem_of_fmap in Hin as (e & Heq & He).
    apply (length_filter_lt _ _ e); [done|]. intros Hn. by apply Hn.
Qed.

Lemma add_then_delete_initial :
  let state := AppProvider_initial "t1" "t2" "t3" "t4" in
  let p := {| e_id := "3"; e_contentType := "article"; e_status := draft;
              e_data := ∅; e_createdAt := "t5"; e_updatedAt := "t5" |} in
  appRun state [ADD_ENTRY p; DELETE_ENTRY (e_id p)] = Some state.
Proof.
  intros state p. destruct (add_then_delete state) as (Hentry & _ & _).
  apply Hentry. not_a_label.
Defined.

(** X5. Unique ids stay unique under every action that is not an add
    or a wholesale set: updates keep the ids as they are, deletes only
    remove some, and the other actions do not touch the collections. *)
Theorem ids_stay_unique (state state' : AppState) (action : Action) :
  appReducer state action = Some state' →
  type action ∉ ["SET_CONTENT_TYPES"; "ADD_CONTENT_TYPE";
                 "SET_ENTRIES"; "ADD_ENTRY"] →
  (NoDup (ct_id <$> contentTypes state) →
     NoDup (ct_id <$> contentTypes state'))
  ∧ (NoDup (e_id <$> entries state) → NoDup (e_id <$> entries state')).
Proof.
  intros Hred Hty. destruct action as [ty p]. cbn [type] in Hty.
  destruct (decide (ty ∈ appCaseLabels)) as [Hin|Hout].
  - by_label Hin; switch_label Hred; destruct p; simplify_eq/=;
      try (exfalso; apply Hty; not_a_label);
      (split; [try done|try done]); intros Hnd.
    + by rewrite (fmap_replace_keys ct_id).
    + by apply NoDup_keys_filter.
    + by rewrite (fmap_replace_keys e_id).
    + by apply NoDup_keys_filter.
  - rewrite appReducer_default in Hred by done. by simplify_eq.
Qed.

Lemma ids_stay_unique_update :
  let state := AppProvider_initial "t1" "t2" "t3" "t4" in
  ∃ state',
    appReducer state
      (UPDATE_ENTRY {| e_id := "2"; e_contentType := "article";
                       e_status := published; e_data := ∅;
                       e_createdAt := "t3"; e_updatedAt := "t5" |})
    = Some state'
    ∧ NoDup (e_id <$> entries state')
    ∧ NoDup (ct_id <$> contentTypes state').
Proof.
  intros state.
  pose (a := UPDATE_ENTRY {| e_id := "2"; e_contentType := "article";
                             e_status := published; e_data := ∅;
                             e_createdAt := "t3"; e_updatedAt := "t5" |}).
  destruct (appReducer state a) as [state'|] eqn:Hred; [|discriminate Hred].
  exists state'. split; [exact Hred|].
  assert (Hty : type a ∉ ["SET_CONTENT_TYPES"; "ADD_CONTENT_TYPE";
                          "SET_ENTRIES"; "ADD_ENTRY"]) by not_a_label.
  destruct (ids_stay_unique state state' a Hred Hty) as [Hct He].
  split; [apply He | apply Hct]; apply (bool_decide_unpack _); vm_compute; exact I.
Defined.

(** X6. An add keeps the ids unique exactly when they were unique and
    the payload's id is not in the collection yet: the store accepts a
    second entry, or a second content type, under an id it already
    holds. *)
Theorem add_keeps_ids_unique_iff (state : AppState) :
  (∀ p, ∃ state',
     appReducer state (ADD_ENTRY p) = Some state'
     ∧ (NoDup (e_id <$> entries state')
        ↔ NoDup (e_id <$> entries state) ∧ e_id p ∉ (e_id <$> entries state)))
  ∧ (∀ ct, ∃ state',
     appReducer state (ADD_CONTENT_TYPE ct) = Some state'
     ∧ (NoDup (ct_id <$> contentTypes state')
        ↔ NoDup (ct_id <$> contentTypes state)
          ∧ ct_id ct ∉ (ct_id <$> contentTypes state))).
Proof.
  split; intros p; eexists; (split; [reflexivity|]);
    cbn [entries with_entries contentTypes with_contentTypes];
    rewrite fmap_app, NoDup_app; cbn [fmap list_fmap].
  - split.
    + intros (Hnd & Hdisj & _). split; [done|]. intros Hin.
      apply (Hdisj _ Hin). by left.
    + intros [Hnd Hfresh]. split; [done|]. split; [|apply NoDup_singleton].
      intros x Hx ->%list_elem_of_singleton. by apply Hfresh.
  - split.
    + intros (Hnd & Hdisj & _). split; [done|]. intros Hin.
      apply (Hdisj _ Hin). by left.
    + intros [Hnd Hfresh]. split; [done|]. split; [|apply NoDup_singleton].
      intros x Hx ->%list_elem_of_singleton. by apply Hfresh.
Qed.

(** ** Signing in and out *)

Lemma auth_step (state state' : AppState) (action : Action) :
  appReducer state action = Some state' →
  (type action = "LOGIN" → payload action ≠ PNull) →
  (isAuthenticated state = true ↔ is_Some (user state)) →
  (isAuthenticated state' = true ↔ is_Some (user state')).
Proof.
  intros Hred Hlogin Hinv. destruct action as [ty p]. cbn [type payload] in *.
  destruct (decide (ty ∈ appCaseLabels)) as [Hin|Hout].
  - by_label Hin; switch_label Hred; destruct p; simplify_eq/=; try done.
    by specialize (Hlogin eq_refl).
  - rewrite appReducer_default in Hred by done. by simplify_eq.
Qed.

(** X7. Along every run in which each [LOGIN] carries a user, the
    authentication flag is set exactly when a user is stored; it holds
    at the provider's initial state. *)
Theorem authenticated_iff_user
    (state state' : AppState) (actions : list Action) :
  appRun state actions = Some state' →
  Forall (λ a, type a = "LOGIN" → payload a ≠ PNull) actions →
  (isAuthenticated state = true ↔ is_Some (user state)) →
  (isAuthenticated state' = true ↔ is_Some (user state')).
Proof.
  revert state. induction actions as [|a rest IH]; intros state Hrun Hall Hinv.
  - by simplify_eq/=.
  - cbn [appRun] in Hrun.
    destruct (appReducer state a) as [state1|] eqn:Hred; [|done].
    apply Forall_cons in Hall as [Ha Hrest].
    apply (IH state1); [done|done|]. by eapply auth_step.
Qed.

Lemma authenticated_iff_user_initial :
  let u := mkUser "1" "Admin User" "a@b.c" "Administrator" in
  ∃ state',
    appRun (AppProvider_initial "t1" "t2" "t3" "t4")
      [LOGIN u; DELETE_ENTRY "1"; LOGOUT; LOGIN u] = Some state'
    ∧ (isAuthenticated state' = true ↔ is_Some (user state')).
Proof.
  intros u.
  pose (state := AppProvider_initial "t1" "t2" "t3" "t4").
  pose (actions := [LOGIN u; DELETE_ENTRY "1"; LOGOUT; LOGIN u]).
  destruct (appRun state actions) as [state'|] eqn:Hrun; [|discriminate Hrun].
  exists state'. split; [exact Hrun|].
  apply (authenticated_iff_user state state' actions Hrun).
  - repeat constructor; cbn; discriminate.
  - cbn. split; [discriminate|by intros [? ?]].
Defined.

Lemma LoginPage_handleSubmit_accepts (email password : string) :
  email ≠ "" → password ≠ "" →
  LoginPage_handleSubmit email password
  = OnLogin {| u_id := "1"; u_name := "Admin User";
               u_email := email; u_role := "Administrator" |}.
Proof.
  intros He Hp. unfold LoginPage_handleSubmit, LoginPage_newErrors.
  destruct (decide (email = "")), (decide (password = "")); try done.
Qed.

Lemma LoginPage_handleSubmit_rejects (email password : string) :
  email = "" ∨ password = "" →
  LoginPage_handleSubmit email password
  = SetErrors (LoginPage_newErrors email password)
  ∧ LoginPage_newErrors email password !! "email"
    = (if decide (email = "") then Some "Email is required" else None)
  ∧ LoginPage_newErrors email password !! "password"
    = (if decide (password = "") then Some "Password is required" else None).
Proof.
  intros Hempty. unfold LoginPage_handleSubmit, LoginPage_newErrors.
  destruct (decide (email = "")) as [He|He], (decide (password = "")) as [Hp|Hp];
    [| | |by destruct Hempty]; by vm_compute.
Qed.

(** X8. The login form signs in exactly when the e-mail and the
    password are both non-empty, with the fixed user ["Admin User"]
    carrying the e-mail that was typed: the password is not compared
    with anything and is not stored.  The admin screen is shown and the
    content is untouched.  With an empty field nothing is dispatched
    and each empty field gets its message. *)
Theorem login_iff_nonempty (email password : string) (state : AppState) :
  (email ≠ "" ∧ password ≠ "" →
     ∃ state',
       App_submit email password state = Some state'
       ∧ App state' = AdminScreen
       ∧ user state'
         = Some {| u_id := "1"; u_name := "Admin User";
                   u_email := email; u_role := "Administrator" |}
       ∧ contentTypes state' = contentTypes state
       ∧ entries state' = entries state)
  ∧ (email = "" ∨ password = "" →
     App_submit email password state = Some state
     ∧ ∃ errors,
         LoginPage_handleSubmit email password = SetErrors errors
         ∧ errors !! "email"
           = (if decide (email = "") then Some "Email is required" else None)
         ∧ errors !! "password"
           = (if decide (password = "") then Some "Password is required"
              else None)).
Proof.
  split.
  - intros [He Hp]. unfold App_submit.
    rewrite LoginPage_handleSubmit_accepts by done.
    eexists. split; [reflexivity|]. done.
  - intros Hempty.
    destruct (LoginPage_handleSubmit_rejects email password Hempty)
      as (Hres & Hemail & Hpassword).
    unfold App_submit. rewrite Hres. split; [done|]. by eexists.
Qed.

Lemma login_iff_nonempty_any_password :
  let state := AppProvider_initial "t1" "t2" "t3" "t4" in
  (∃ state', App_submit "a@b.c" "x" state = Some state'
             ∧ App state' = AdminScreen)
  ∧ App_submit "a@b.c" "" state = Some state
  ∧ App state = LoginScreen.
Proof.
  intros state.
  destruct (login_iff_nonempty "a@b.c" "x" state) as [Hok _].
  destruct (login_iff_nonempty "a@b.c" "" state) as [_ Hno].
  split; [|split; [|reflexivity]].
  - destruct Hok as (state' & Hsub & Hscreen & _); [by split|].
    by exists state'.
  - apply Hno. by right.
Defined.

(** X9. Signing out after signing in shows the login screen again and
    leaves no user behind, while the content types and the entries are
    what they were; a state that was signed out before is restored
    exactly. *)
Theorem signOut_after_login (state : AppState) (u : User) :
  ∃ s1 s2,
    appReducer state (LOGIN u) = Some s1
    ∧ appReducer s1 Header_signOut = Some s2
    ∧ App s1 = AdminScreen
    ∧ App s2 = LoginScreen
    ∧ user s2 = None
    ∧ contentTypes s2 = contentTypes state
    ∧ entries s2 = entries state
    ∧ (user state = None → isAuthenticated state = false → s2 = state).
Proof.
  do 2 eexists. do 2 (split; [reflexivity|]).
  do 5 (split; [reflexivity|]).
  destruct state as [usr auth cts es]. simpl. by intros -> ->.
Qed.

Lemma signOut_after_login_initial :
  let state := AppProvider_initial "t1" "t2" "t3" "t4" in
  appRun state [LOGIN (mkUser "1" "Admin User" "a@b.c" "Administrator");
                Header_signOut]
  = Some state.
Proof.
  intros state.
  destruct (signOut_after_login state
              (mkUser "1" "Admin User" "a@b.c" "Administrator"))
    as (s1 & s2 & H1 & H2 & _ & _ & _ & _ & _ & Hsame).
  cbn [appRun]. rewrite H1. cbn [mbind option_bind].
  rewrite H2. cbn [mbind option_bind].
  by rewrite Hsame.
Defined.

(** * The dashboard *)

Lemma filter_status_split (es : list ContentEntry) :
  (length (filter (λ e, e_status e = published) es)
   + length (filter (λ e, e_status e = draft) es))%nat
  = length es.
Proof.
  induction es as [|e es IH]; [done|].
  rewrite !filter_cons. destruct (e_status e) eqn:Hs.
  - rewrite decide_False, decide_True by done. simpl. lia.
  - rewrite decide_True, decide_False by done. simpl. lia.
Qed.

(** X10. The counters of the dashboard add up: published plus drafts
    is the total, for every state.  An [ADD_ENTRY] raises the total and
    the counter of the payload's status by one and leaves the other
    counter and the number of content types alone. *)
Theorem Dashboard_stats_add_up (state : AppState) :
  ∃ total pub drafts types,
    Dashboard_stats state
    = [ ("Total Entries", total); ("Published", pub);
        ("Drafts", drafts); ("Content Types", types) ]
    ∧ (pub + drafts)%nat = total
    ∧ ∀ p, ∃ state',
        appReducer state (ADD_ENTRY p) = Some state'
        ∧ Dashboard_stats state'
          = [ ("Total Entries", S total);
              ("Published", if e_status p is published then S pub else pub);
              ("Drafts", if e_status p is draft then S drafts else drafts);
              ("Content Types", types) ].
Proof.
  do 4 eexists. split; [reflexivity|]. split; [apply filter_status_split|].
  intros p. eexists. split; [reflexivity|].
  unfold Dashboard_stats. cbn [entries contentTypes with_entries].
  rewrite !filter_app, !length_app, !filter_cons, !filter_nil.
  destruct (e_status p).
  - rewrite decide_False, decide_True by done. cbn [length].
    by rewrite !Nat.add_1_r, Nat.add_0_r.
  - rewrite decide_True, decide_False by done. cbn [length].
    by rewrite !Nat.add_1_r, Nat.add_0_r.
Qed.

Lemma truthy_jsOr (a b : option JsValue) :
  truthy b = true → truthy (jsOr a b) = true.
Proof. intros Hb. unfold jsOr. by destruct (truthy a) eqn:Ha. Qed.

(** X11. The activity table shows the first entries of the collection,
    at most five of them, in their order; and the title cell of a row
    is never [undefined] nor any other falsy value, whatever the data
    mapping holds: it is [data.title] when that is truthy, ["Untitled"]
    when neither [title] nor [name] is. *)
Theorem Dashboard_rows_and_titles (state : AppState) :
  length (Dashboard_rows state) = (5 `min` length (entries state))%nat
  ∧ Dashboard_rows state `prefix_of` entries state
  ∧ (∀ i, (i < 5)%nat → Dashboard_rows state !! i = entries state !! i)
  ∧ ∀ entry,
      truthy (Dashboard_rowTitle entry) = true
      ∧ (truthy (e_data entry !! "title") = true →
         Dashboard_rowTitle entry = e_data entry !! "title")
      ∧ (truthy (e_data entry !! "title") = false →
         truthy (e_data entry !! "name") = false →
         Dashboard_rowTitle entry = Some (JsString "Untitled")).
Proof.
  split; [apply length_take|]. split; [apply prefix_take|].
  split; [intros i Hi; by apply lookup_take_lt|].
  intros entry. unfold Dashboard_rowTitle. split; [|split].
  - by do 2 apply truthy_jsOr.
  - intros Ht. unfold jsOr at 1. by rewrite Ht.
  - intros Ht Hn. unfold jsOr. by rewrite Ht, Hn.
Qed.

(** * Pages *)

(** X12. [renderPage] has a page for every string: whatever is not
    one of [content-types], [media] and [settings] renders the
    dashboard.  So of the six entries of the menu, three lead to a page
    of their own and three, [dashboard], [content-manager] and [roles],
    render the dashboard. *)
Theorem renderPage_menu :
  (∀ page, page ∉ ["content-types"; "media"; "settings"] →
     renderPage page = DashboardPage)
  ∧ renderPage "content-types" = ContentTypeBuilderPage
  ∧ renderPage "media" = MediaLibraryPage
  ∧ renderPage "settings" = SettingsPage
  ∧ ∀ item, item ∈ menuItems →
      (renderPage item.1 = DashboardPage
       ↔ item.1 ∈ ["dashboard"; "content-manager"; "roles"]).
Proof.
  split.
  { intros page Hpage. unfold renderPage. cbn [switch].
    destruct (decide (page = "dashboard")); [done|].
    apply not_elem_of_cons in Hpage as [H1 Hpage].
    apply not_elem_of_cons in Hpage as [H2 Hpage].
    apply not_elem_of_cons in Hpage as [H3 _].
    by rewrite !decide_False by done. }
  do 3 (split; [reflexivity|]).
  intros item Hitem. unfold menuItems in Hitem.
  repeat (apply elem_of_cons in Hitem as [->|Hitem]);
    [..|by apply elem_of_nil in Hitem]; cbn [fst];
    (split; [intros Hr; first [not_a_label | by vm_compute in Hr]
            |intros Hin; first [reflexivity
                               | exfalso; revert Hin; not_a_label]]).
Qed.

Lemma renderPage_menu_roles : renderPage "roles" = DashboardPage.
Proof.
  destruct renderPage_menu as (Hdefault & _).
  apply Hdefault. not_a_label.
Defined.

(** * Further properties of the preferences *)

(** X13. The sidebar toggle is an involution: two presses give the
    state back.  One press of the direction toggle always leaves a
    member of the enumeration, even when the direction was not one; two
    presses give the state back when it was one, and end on ["rtl"]
    when it was not. *)
Theorem toggles_twice (state : UIState) :
  (∃ s1, uiReducer state Header_toggleSidebar = Some s1
         ∧ sidebarOpen s1 = negb (sidebarOpen state)
         ∧ uiReducer s1 Header_toggleSidebar = Some state)
  ∧ (∃ s1 s2,
       uiReducer state Header_toggleDirection = Some s1
       ∧ uiReducer s1 Header_toggleDirection = Some s2
       ∧ isDirection (direction s1)
       ∧ isDirection (direction s2)
       ∧ (isDirection (direction state) → s2 = state)
       ∧ (¬ isDirection (direction state) →
          direction s1 = "ltr" ∧ direction s2 = "rtl")).
Proof.
  destruct state as [th d sb ld er]. split.
  - eexists. split; [reflexivity|]. split; [reflexivity|].
    change (Some (mkUIState th d (negb (negb sb)) ld er)
            = Some (mkUIState th d sb ld er)).
    by rewrite negb_involutive.
  - do 2 eexists. do 2 (split; [reflexivity|]). cbn.
    destruct (decide (d = "ltr")) as [->|Hltr]; cbn.
    + split; [by right|]. split; [by left|]. split; [done|].
      intros Hn. exfalso. apply Hn. by left.
    + split; [by left|]. split; [by right|]. split.
      * by intros [?| ->].
      * done.
Qed.

Lemma UIProvider_mount_inSync (b : Browser) : inSync (UIProvider_mount b).
Proof. by split. Qed.

Lemma UIProvider_dispatch_inSync (store store' : UIStore) (action : Action) :
  inSync store →
  UIProvider_dispatch store action = Some store' →
  inSync store'.
Proof.
  intros [Hdark Hdir]. unfold UIProvider_dispatch.
  destruct (uiReducer (ui store) action) as [state'|]; [|discriminate].
  cbn. intros [= <-]. unfold inSync. cbn.
  destruct (decide (direction state' = direction (ui store))) as [Hd|?];
    destruct (decide (theme state' = theme (ui store))) as [Ht|?]; cbn;
    rewrite ?Hd, ?Ht; by split.
Qed.

Lemma UIProvider_dispatch_other_keys
    (store store' : UIStore) (action : Action) (k : string) :
  k ≠ "theme" → k ≠ "direction" →
  UIProvider_dispatch store action = Some store' →
  localStorage (browser store') !! k = localStorage (browser store) !! k.
Proof.
  intros Hth Hdir. unfold UIProvider_dispatch.
  destruct (uiReducer (ui store) action) as [state'|]; [|discriminate].
  cbn. intros [= <-]. cbn.
  destruct (decide (direction state' = direction (ui store)));
    destruct (decide (theme state' = theme (ui store))); cbn;
    unfold setItem; by rewrite ?lookup_insert_ne by done.
Qed.

(** X14. After the first render and after every dispatch since, the
    browser mirrors the state: [localStorage] holds the theme and the
    direction under their keys, the root element has the class [dark]
    exactly when the theme is ["dark"], and its [dir] is the direction.
    Every other key of [localStorage] is what it was before the
    provider mounted. *)
Theorem UIProvider_run_mirrors_state
    (b : Browser) (actions : list Action) (store : UIStore) :
  UIProvider_run (UIProvider_mount b) actions = Some store →
  getItem "theme" (localStorage (browser store)) = Some (theme (ui store))
  ∧ getItem "direction" (localStorage (browser store))
    = Some (direction (ui store))
  ∧ darkClass (browser store) = bool_decide (theme (ui store) = "dark")
  ∧ dir (browser store) = direction (ui store)
  ∧ ∀ k, k ≠ "theme" → k ≠ "direction" →
      getItem k (localStorage (browser store)) = getItem k (localStorage b).
Proof.
  intros Hrun.
  destruct (UIProvider_run_persisted actions _ _
              (UIProvider_mount_persisted b) Hrun) as [Hth Hdir].
  split; [exact Hth|]. split; [exact Hdir|].
  assert (Hrest : inSync store
            ∧ ∀ k, k ≠ "theme" → k ≠ "direction" →
                localStorage (browser store) !! k = localStorage b !! k).
  { clear Hth Hdir.
    assert (Hstart : inSync (UIProvider_mount b)
              ∧ ∀ k, k ≠ "theme" → k ≠ "direction" →
                  localStorage (browser (UIProvider_mount b)) !! k
                  = localStorage b !! k).
    { split; [apply UIProvider_mount_inSync|].
      intros k H1 H2. cbn. unfold setItem. by rewrite !lookup_insert_ne. }
    revert Hrun Hstart. generalize (UIProvider_mount b).
    induction actions as [|a rest IH]; intros st Hrun [Hsync Hkeys].
    - by simplify_eq/=.
    - cbn [UIProvider_run] in Hrun.
      destruct (UIProvider_dispatch st a) as [st1|] eqn:Hd; [|done].
      apply (IH st1 Hrun). split; [by eapply UIProvider_dispatch_inSync|].
      intros k H1 H2.
      rewrite (UIProvider_dispatch_other_keys st st1 a k H1 H2 Hd).
      by apply Hkeys. }
  destruct Hrest as [[Hdark Hd] Hkeys]. by repeat split.
Qed.

Lemma UIProvider_run_mirrors_state_buttons :
  let b := {| localStorage := {[ "token" := "abc" ]};
              darkClass := true; dir := "rtl" |} in
  ∃ store,
    UIProvider_run (UIProvider_mount b)
      [Header_toggleDirection; Header_toggleSidebar] = Some store
    ∧ getItem "direction" (localStorage (browser store)) = Some "rtl"
    ∧ getItem "theme" (localStorage (browser store)) = Some "light"
    ∧ darkClass (browser store) = false
    ∧ getItem "token" (localStorage (browser store)) = Some "abc".
Proof.
  intros b.
  pose (actions := [Header_toggleDirection; Header_toggleSidebar]).
  destruct (UIProvider_run (UIProvider_mount b) actions) as [store|] eqn:Hrun;
    [|discriminate Hrun].
  exists store. split; [exact Hrun|].
  destruct (UIProvider_run_mirrors_state b actions store Hrun)
    as (Hth & Hdir & Hdark & _ & Hkeys).
  assert (Hui : ui store = mkUIState "light" "rtl" false false None).
  { vm_compute in Hrun. by simplify_eq. }
  rewrite Hth, Hdir, Hdark, Hui. repeat split.
  rewrite Hkeys by discriminate. by vm_compute.
Defined.

(** X15. What a restart keeps.  A provider that starts on the storage
    an earlier one left behind begins with the earlier theme and
    direction, except that an empty string comes back as the default;
    the sidebar, the loading flag and the error are not stored and
    start from their defaults. *)
Theorem restart_keeps_theme_and_direction
    (b : Browser) (actions : list Action) (store : UIStore) (b' : Browser) :
  UIProvider_run (UIProvider_mount b) actions = Some store →
  localStorage b' = localStorage (browser store) →
  theme (ui (UIProvider_mount b'))
  = (if decide (theme (ui store) = "") then "light" else theme (ui store))
  ∧ direction (ui (UIProvider_mount b'))
    = (if decide (direction (ui store) = "") then "ltr"
       else direction (ui store))
  ∧ sidebarOpen (ui (UIProvider_mount b')) = true
  ∧ loading (ui (UIProvider_mount b')) = false
  ∧ error (ui (UIProvider_mount b')) = None.
Proof.
  intros Hrun Hsame.
  destruct (UIProvider_run_persisted actions _ _
              (UIProvider_mount_persisted b) Hrun) as [Hth Hdir].
  cbn. unfold getItem. rewrite Hsame, Hth, Hdir. by cbn.
Qed.

Lemma restart_keeps_direction_loses_sidebar :
  let b := {| localStorage := ∅; darkClass := false; dir := "" |} in
  ∃ store,
    UIProvider_run (UIProvider_mount b)
      [Header_toggleDirection; Header_toggleSidebar] = Some store
    ∧ sidebarOpen (ui store) = false
    ∧ direction (ui (UIProvider_mount (browser store))) = "rtl"
    ∧ sidebarOpen (ui (UIProvider_mount (browser store))) = true.
Proof.
  intros b.
  pose (actions := [Header_toggleDirection; Header_toggleSidebar]).
  destruct (UIProvider_run (UIProvider_mount b) actions) as [store|] eqn:Hrun;
    [|discriminate Hrun].
  exists store. split; [exact Hrun|].
  destruct (restart_keeps_theme_and_direction b actions store (browser store)
              Hrun eq_refl) as (_ & Hdir & Hside & _).
  assert (Hui : ui store = mkUIState "light" "rtl" false false None).
  { vm_compute in Hrun. by simplify_eq. }
  rewrite Hdir, Hside, Hui. by repeat split.
Defined.

(** * The content-type form and the store's field objects *)

Lemma BuilderPage_initial_reads :
  readType (fieldObjects BuilderPage_initial) <$> storedTypes BuilderPage_initial
  = contentTypes (AppProvider_initial "t1" "t2" "t3" "t4").
Proof. reflexivity. Qed.

Lemma readType_id (h : list Field) (ty : ContentTypeObj) :
  ct_id (readType h ty) = o_id ty.
Proof. reflexivity. Qed.

Lemma readType_spreadForm (h : list Field) (i : string) (fd : FormObj) :
  readType h (spreadFormObj i fd) = spreadForm i (readForm h fd).
Proof. reflexivity. Qed.

(** X16. Renaming a field in the edit form renames it in the store at
    once.  After the edit button of a stored content type, a change in
    the name input of one of its fields writes to the very field object
    the stored content type refers to: no save is needed, closing the
    dialog does not take it back, the stored content type is the same
    object as before and now reads the new name.  No other field object
    is written. *)
Theorem rename_in_edit_form_reaches_store
    (p : BuilderPage) (k idx r : nat) (ty : ContentTypeObj) (f : Field)
    (v : string) :
  storedTypes p !! k = Some ty →
  o_fields ty !! idx = Some r →
  fieldObjects p !! r = Some f →
  let renamed := mkField (f_id f) v (f_type f) (f_required f)
                   (f_options f) (f_relation f) in
  ∃ p',
    builderRun p [ClickEdit k; ChangeFieldName idx v; ClickClose] = Some p'
    ∧ storedTypes p' = storedTypes p
    ∧ bo_isModalOpen (component p') = false
    ∧ fieldObjects p' !! r = Some renamed
    ∧ renamed ∈ ct_fields (readType (fieldObjects p') ty)
    ∧ ∀ r', r' ≠ r → fieldObjects p' !! r' = fieldObjects p !! r'.
Proof.
  intros Hk Hidx Hr renamed.
  assert (Hlt : (r < length (fieldObjects p))%nat) by by eapply lookup_lt_Some.
  eexists. split.
  { cbn [builderRun builderStep]. rewrite Hk. cbn. rewrite Hidx. cbn.
    rewrite Hr. reflexivity. }
  cbn. split; [reflexivity|]. split; [reflexivity|].
  split; [by apply list_lookup_insert_eq|].
  split; [|intros r' Hne; by apply list_lookup_insert_ne].
  unfold readFields. apply list_elem_of_omap. exists r.
  split; [by eapply list_elem_of_lookup_2|].
  by apply list_lookup_insert_eq.
Qed.

Lemma rename_in_edit_form_initial :
  ∃ p',
    builderRun BuilderPage_initial
      [ClickEdit 0; ChangeFieldName 0 "headline"; ClickClose] = Some p'
    ∧ storedTypes p' = storedTypes BuilderPage_initial
    ∧ f_name <$> fieldObjects p' !! 0%nat = Some "headline".
Proof.
  destruct (rename_in_edit_form_reaches_store BuilderPage_initial 0 0 0
              (mkContentTypeObj "1" "Article" "article" "articles" [0; 1; 2]%nat)
              (mkField "1" "title" text (Some true) None None) "headline"
              eq_refl eq_refl eq_refl)
    as (p' & Hrun & Hstored & _ & Hobj & _).
  exists p'. split; [exact Hrun|]. split; [exact Hstored|].
  by rewrite Hobj.
Defined.




Lemma builderStep_formIdMatches (p p' : BuilderPage) (ev : BuilderEvent) :
  formIdMatches p → builderStep p ev = Some p' → formIdMatches p'.
Proof.
  unfold formIdMatches. intros Hinv Hstep.
  destruct ev; cbn in Hstep; unfold whenOpen in Hstep;
    try (destruct (bo_isModalOpen (component p)); [|done]);
    try case_decide; simplify_option_eq; done.
Qed.

(** X18. From the start of the application on, whatever is done on the
    page, the form carries an id exactly while a content type is being
    edited, and it is then that content type's id.  Hence a save
    outside edit mode appends one content type whose id is the decimal
    string of the clock, and a save in edit mode stores the form under
    the id of the content type being edited. *)
Theorem form_id_follows_edit_mode
    (events : list BuilderEvent) (p : BuilderPage) :
  builderRun BuilderPage_initial events = Some p →
  formIdMatches p
  ∧ ∀ now p',
      builderStep p (ClickSave now) = Some p' →
      match bo_editingType (component p) with
      | None =>
          ∃ ty, storedTypes p' = (storedTypes p ++ [ty])%list
                ∧ o_id ty = pretty now
      | Some et =>
          ∀ i ct, storedTypes p !! i = Some ct →
            storedTypes p' !! i
            = Some (if decide (o_id ct = o_id et)
                    then spreadFormObj (o_id et) (bo_formData (component p))
                    else ct)
      end.
Proof.
  intros Hrun.
  assert (Hinv : formIdMatches p).
  { assert (Hstart : formIdMatches BuilderPage_initial) by done.
    revert Hrun Hstart. generalize BuilderPage_initial.
    induction events as [|ev rest IH]; intros p0 Hrun Hstart.
    - by simplify_eq/=.
    - cbn [builderRun] in Hrun.
      destruct (builderStep p0 ev) as [p1|] eqn:Hstep; [|done].
      apply (IH p1 Hrun). by eapply builderStep_formIdMatches. }
  split; [exact Hinv|].
  intros now p' Hsave. cbn in Hsave. unfold whenOpen in Hsave.
  destruct (bo_isModalOpen (component p)); [|done]. simplify_eq.
  unfold formIdMatches in Hinv. unfold handleSaveObj. cbn.
  destruct (bo_editingType (component p)) as [et|]; cbn in Hinv.
  - intros i ct Hi. rewrite list_lookup_fmap, Hi. cbn.
    by rewrite Hinv.
  - eexists. split; [reflexivity|]. cbn. by rewrite Hinv.
Qed.

Lemma form_id_follows_edit_mode_new :
  ∃ p p',
    builderRun BuilderPage_initial [ClickNew; ChangeName "Page"] = Some p
    ∧ builderStep p (ClickSave 1700000000000) = Some p'
    ∧ o_id <$> storedTypes p' = ["1"; "2"; "1700000000000"].
Proof.
  pose (events := [ClickNew; ChangeName "Page"]).
  destruct (builderRun BuilderPage_initial events) as [p|] eqn:Hrun;
    [|discriminate Hrun].
  destruct (builderStep p (ClickSave 1700000000000)) as [p'|] eqn:Hsave;
    [|vm_compute in Hrun; simplify_eq; discriminate Hsave].
  exists p, p'. split; [exact Hrun|]. split; [exact Hsave|].
  destruct (form_id_follows_edit_mode events p Hrun) as [_ Hnext].
  specialize (Hnext _ _ Hsave).
  vm_compute in Hrun. simplify_eq. cbn in Hnext.
  destruct Hnext as (ty & -> & Hid).
  cbn [fmap list_fmap o_id]. rewrite Hid. by vm_compute.
Defined.

(** X19. The save handler on values is the save handler on objects,
    read through the heap: when the state's content types are the
    stored objects read as values, the by-value [handleSave] on the
    component read as values has a result, and its content types and
    its component are those of the object-level save read as values.
    The save itself writes to no field object. *)
Theorem handleSave_reads_handleSaveObj
    (now : Z) (p : BuilderPage) (state : AppState) :
  contentTypes state = readType (fieldObjects p) <$> storedTypes p →
  ∃ c' state',
    handleSave now (readBuilder (fieldObjects p) (component p)) state
    = Some (c', state')
    ∧ contentTypes state'
      = readType (fieldObjects p) <$> storedTypes (handleSaveObj now p)
    ∧ c' = readBuilder (fieldObjects p) (component (handleSaveObj now p))
    ∧ entries state' = entries state
    ∧ fieldObjects (handleSaveObj now p) = fieldObjects p.
Proof.
  intros Hcts. unfold handleSave, handleSave_action, handleSaveObj.
  destruct (bo_editingType (component p)) as [et|] eqn:Het;
    cbn [readBuilder editingType formData fmap option_fmap option_map].
  - rewrite Het. cbn [fmap option_fmap option_map].
    change (appReducer state _)
      with (appReducer state
              (UPDATE_CONTENT_TYPE
                 (spreadForm (ct_id (readType (fieldObjects p) et))
                    (readForm (fieldObjects p) (bo_formData (component p)))))).
    rewrite appReducer_UPDATE_CONTENT_TYPE. cbn [mbind option_bind].
    do 2 eexists. split; [reflexivity|].
    cbn [contentTypes with_contentTypes storedTypes component fieldObjects
         entries].
    split; [|done].
    rewrite Hcts, <- !list_fmap_compose. apply list_fmap_ext.
    intros i ct _. cbn.
    by destruct (decide (o_id ct = _)).
  - rewrite Het. cbn [fmap option_fmap option_map].
    change (appReducer state _)
      with (appReducer state
              {| type := "ADD_CONTENT_TYPE";
                 payload :=
                   PContentType
                     (spreadForm (pretty now)
                        (readForm (fieldObjects p)
                           (bo_formData (component p)))) |}).
    rewrite appReducer_ADD_CONTENT_TYPE. cbn [mbind option_bind].
    do 2 eexists. split; [reflexivity|].
    cbn [contentTypes with_contentTypes storedTypes component fieldObjects
         entries].
    split; [|done].
    by rewrite Hcts, fmap_app.
Qed.

Lemma handleSave_reads_handleSaveObj_initial :
  ∃ c' state',
    handleSave 1700000000000
      (readBuilder (fieldObjects BuilderPage_initial)
         (component BuilderPage_initial))
      (AppProvider_initial "t1" "t2" "t3" "t4")
    = Some (c', state')
    ∧ length (contentTypes state') = 3%nat.
Proof.
  destruct (handleSave_reads_handleSaveObj 1700000000000 BuilderPage_initial
              (AppProvider_initial "t1" "t2" "t3" "t4") eq_refl)
    as (c' & state' & Hsave & Hcts & _).
  exists c', state'. split; [exact Hsave|]. by rewrite Hcts.
Defined.

(** ** What reaches the store before a save *)

Lemma readFields_app_heap (h : list Field) (x : Field) (rs : list nat) :
  Forall (λ r, r < length h)%nat rs →
  readFields (h ++ [x]) rs = readFields h rs.
Proof.
  unfold readFields. induction 1 as [|r rs Hr _ IH]; [done|].
  cbn. by rewrite lookup_app_l, IH.
Qed.

Lemma readFields_insert_other (h : list Field) (r : nat) (f : Field)
    (rs : list nat) :
  r ∉ rs → readFields (<[r := f]> h) rs = readFields h rs.
Proof.
  unfold readFields. induction rs as [|r' rs IH]; intros Hr; [done|].
  apply not_elem_of_cons in Hr as [Hne Hr].
  cbn. by rewrite list_lookup_insert_ne, IH.
Qed.

Lemma builderStep_refsValid (p p' : BuilderPage) (ev : BuilderEvent) :
  refsValid p → builderStep p ev = Some p' → refsValid p'.
Proof.
  intros [Hstored Hform] Hstep. unfold refsValid.
  destruct ev; cbn in Hstep; unfold whenOpen in Hstep;
    try (destruct (bo_isModalOpen (component p)); [|done]);
    try case_decide; simplify_option_eq; cbn; try done.
  - (* edit *)
    split; [done|]. rewrite Forall_forall in Hstored.
    apply Hstored. by eapply list_elem_of_lookup_2.
  - (* add field *)
    rewrite length_app. cbn. split.
    + eapply Forall_impl; [exact Hstored|]. intros ty Hty. cbn in Hty.
      eapply Forall_impl; [exact Hty|]. intros r Hr. cbn in Hr. lia.
    + apply Forall_app. split; [|apply Forall_singleton; lia].
      eapply Forall_impl; [exact Hform|]. intros r Hr. cbn in Hr. lia.
  - (* field name *) by rewrite length_insert.
  - (* field type *) by rewrite length_insert.
  - (* save *)
    split; [|done].
    destruct (bo_editingType (component p)) as [et|].
    + apply Forall_fmap. eapply Forall_impl; [exact Hstored|].
      intros ty Hty. cbn. by case_decide.
    + apply Forall_app. split; [done|]. by apply Forall_singleton.
Qed.

Lemma builderStep_formIsPrivate (p p' : BuilderPage) (ev : BuilderEvent) :
  refsValid p → formIsPrivate p → builderStep p ev = Some p' →
  formIsPrivate p'.
Proof.
  intros [Hstored Hform] Hpriv Hstep. unfold formIsPrivate in *.
  destruct ev; cbn in Hstep; unfold whenOpen in Hstep;
    try (destruct (bo_isModalOpen (component p)); [|done]);
    try case_decide; simplify_option_eq; cbn; try done.
  intros Hnew. apply Forall_app. split; [by apply Hpriv|].
  apply Forall_singleton. eapply Forall_impl; [exact Hstored|].
  intros ty Hty Hin. cbn in *. rewrite Forall_forall in Hty.
  specialize (Hty _ Hin). lia.
Qed.

Lemma builderRun_invariants (events : list BuilderEvent) (p : BuilderPage) :
  builderRun BuilderPage_initial events = Some p →
  refsValid p ∧ formIsPrivate p.
Proof.
  assert (Hstart : refsValid BuilderPage_initial
                   ∧ formIsPrivate BuilderPage_initial).
  { split; [|by intros _; constructor].
    split; [|by constructor].
    repeat constructor; cbn; lia. }
  revert Hstart. generalize BuilderPage_initial.
  induction events as [|ev rest IH]; intros p0 [Hvalid Hpriv] Hrun.
  - by simplify_eq/=.
  - cbn [builderRun] in Hrun.
    destruct (builderStep p0 ev) as [p1|] eqn:Hstep; [|done].
    apply (IH p1); [|done]. split.
    + by eapply builderStep_refsValid.
    + by eapply builderStep_formIsPrivate.
Qed.

Lemma readType_insert_other (h : list Field) (r : nat) (f : Field)
    (tys : list ContentTypeObj) :
  Forall (λ ty, r ∉ o_fields ty) tys →
  readType (<[r := f]> h) <$> tys = readType h <$> tys.
Proof.
  intros Hr. apply Forall_fmap_ext. eapply Forall_impl; [exact Hr|].
  intros ty Hty. cbn in Hty. unfold readType.
  by rewrite readFields_insert_other.
Qed.

(** X20. While no content type is being edited, nothing done in the
    form reaches the store before a save: from the start of the
    application on, every action on the page other than a save leaves
    the stored content types, read as values, exactly as they were.
    The field objects such a form writes to are its own. *)
Theorem new_form_is_private
    (events : list BuilderEvent) (p p' : BuilderPage) (ev : BuilderEvent) :
  builderRun BuilderPage_initial events = Some p →
  bo_editingType (component p) = None →
  (∀ now, ev ≠ ClickSave now) →
  builderStep p ev = Some p' →
  readType (fieldObjects p') <$> storedTypes p'
  = readType (fieldObjects p) <$> storedTypes p.
Proof.
  intros Hrun Hnew Hev Hstep.
  destruct (builderRun_invariants events p Hrun) as [[Hstored Hform] Hpriv].
  specialize (Hpriv Hnew). rewrite Forall_forall in Hpriv.
  destruct ev; cbn in Hstep; unfold whenOpen in Hstep;
    try (destruct (bo_isModalOpen (component p)); [|done]);
    try case_decide; simplify_option_eq; cbn; try done.
  - (* add field *)
    apply Forall_fmap_ext. eapply Forall_impl; [exact Hstored|].
    intros ty Hty. cbn in Hty. unfold readType.
    by rewrite readFields_app_heap.
  - (* field name *)
    apply readType_insert_other, Hpriv. by eapply list_elem_of_lookup_2.
  - (* field type *)
    apply readType_insert_other, Hpriv. by eapply list_elem_of_lookup_2.
  - by destruct (Hev now).
Qed.

Lemma new_form_is_private_initial :
  ∃ p p',
    builderRun BuilderPage_initial [ClickNew; ClickAddField 1700000000000]
    = Some p
    ∧ builderStep p (ChangeFieldName 0 "headline") = Some p'
    ∧ readType (fieldObjects p') <$> storedTypes p'
      = contentTypes (AppProvider_initial "t1" "t2" "t3" "t4").
Proof.
  pose (events := [ClickNew; ClickAddField 1700000000000]).
  destruct (builderRun BuilderPage_initial events) as [p|] eqn:Hrun;
    [|discriminate Hrun].
  destruct (builderStep p (ChangeFieldName 0 "headline")) as [p'|] eqn:Hstep;
    [|vm_compute in Hrun; simplify_eq; discriminate Hstep].
  exists p, p'. split; [exact Hrun|]. split; [exact Hstep|].
  rewrite (new_form_is_private events p p' (ChangeFieldName 0 "headline") Hrun);
    [| |discriminate|exact Hstep].
  - vm_compute in Hrun. by simplify_eq.
  - vm_compute in Hrun. by simplify_eq.
Defined.

(** X21. A field added in the form stays in the form.  From the start
    of the application on, the add-field button creates one new field
    object, an empty text field whose id is the decimal string of the
    clock, and appends it to the form's fields; the stored content
    types, read as values, are untouched, in edit mode too.  So unlike
    a rename, an added field reaches the store only with a save. *)
Theorem added_field_stays_in_form
    (events : list BuilderEvent) (p p' : BuilderPage) (now : Z) :
  builderRun BuilderPage_initial events = Some p →
  builderStep p (ClickAddField now) = Some p' →
  storedTypes p' = storedTypes p
  ∧ readType (fieldObjects p') <$> storedTypes p'
    = readType (fieldObjects p) <$> storedTypes p
  ∧ fd_fields (readForm (fieldObjects p') (bo_formData (component p')))
    = (fd_fields (readForm (fieldObjects p) (bo_formData (component p)))
         ++ [mkField (pretty now) "" text None None None])%list
  ∧ bo_editingType (component p') = bo_editingType (component p).
Proof.
  intros Hrun Hstep.
  destruct (builderRun_invariants events p Hrun) as [[Hstored Hform] _].
  cbn in Hstep. unfold whenOpen in Hstep.
  destruct (bo_isModalOpen (component p)); [|done]. simplify_eq. cbn.
  split; [done|]. split; [|split; [|done]].
  - apply Forall_fmap_ext. eapply Forall_impl; [exact Hstored|].
    intros ty Hty. cbn in Hty. unfold readType.
    by rewrite readFields_app_heap.
  - unfold readFields. rewrite omap_app. cbn.
    rewrite lookup_app_r, Nat.sub_diag by lia. cbn. f_equal.
    by apply readFields_app_heap.
Qed.

Lemma added_field_stays_in_form_edit :
  ∃ p p',
    builderRun BuilderPage_initial [ClickEdit 0] = Some p
    ∧ builderStep p (ClickAddField 1700000000000) = Some p'
    ∧ length (fd_fields (readForm (fieldObjects p')
                           (bo_formData (component p')))) = 4%nat
    ∧ readType (fieldObjects p') <$> storedTypes p'
      = contentTypes (AppProvider_initial "t1" "t2" "t3" "t4").
Proof.
  pose (events := [ClickEdit 0]).
  destruct (builderRun BuilderPage_initial events) as [p|] eqn:Hrun;
    [|discriminate Hrun].
  destruct (builderStep p (ClickAddField 1700000000000)) as [p'|] eqn:Hstep;
    [|vm_compute in Hrun; simplify_eq; discriminate Hstep].
  exists p, p'. split; [exact Hrun|]. split; [exact Hstep|].
  destruct (added_field_stays_in_form events p p' _ Hrun Hstep)
    as (_ & Hread & Hfields & _).
  rewrite Hread, Hfields. vm_compute in Hrun. simplify_eq. by split.
Defined.

(** * The preferences reducer, case by case *)

(** X22. Each preference changes only under its own actions: the
    theme under [TOGGE_TLHEME] and [SET_THEME], the direction under
    [TOGGLE_DIRECTION] and [SET_DIRECTION], the sidebar under
    [TOGGLE_SIDEBAR], the loading flag under [SET_LOADING] and the
    error under [SET_ERROR]. *)
Theorem uiReducer_frame (state state' : UIState) (action : Action) :
  uiReducer state action = Some state' →
  (type action ∉ ["TOGGE_TLHEME"; "SET_THEME"] → theme state' = theme state)
  ∧ (type action ∉ ["TOGGLE_DIRECTION"; "SET_DIRECTION"] →
     direction state' = direction state)
  ∧ (type action ≠ "TOGGLE_SIDEBAR" → sidebarOpen state' = sidebarOpen state)
  ∧ (type action ≠ "SET_LOADING" → loading state' = loading state)
  ∧ (type action ≠ "SET_ERROR" → error state' = error state).
Proof.
  intros Hred. destruct action as [ty p]. cbn [type].
  destruct (decide (ty ∈ uiCaseLabels)) as [Hin|Hout].
  - by_label Hin; switch_label Hred; destruct p; simplify_eq/=;
      repeat split; intros Hn;
      first [ done | exfalso; apply Hn; not_a_label ].
  - rewrite uiReducer_default in Hred by done. by simplify_eq.
Qed.

Lemma uiReducer_frame_loading :
  let state := UIProvider_initial ∅ in
  ∃ state',
    uiReducer state {| type := "SET_LOADING"; payload := PBool true |}
    = Some state'
    ∧ theme state' = "light"
    ∧ error state' = None.
Proof.
  intros state. eexists. split; [reflexivity|].
  destruct (uiReducer_frame state _
              {| type := "SET_LOADING"; payload := PBool true |} eq_refl)
    as (Hth & _ & _ & _ & Her).
  rewrite Hth by not_a_label. rewrite Her by discriminate. done.
Defined.

(** X23. The two enumerations are kept by every action that does not
    set a value outside them: when each [SET_THEME] carries ["light"]
    or ["dark"] and each [SET_DIRECTION] carries ["ltr"] or ["rtl"], a
    theme and a direction that are members stay members along every
    run. *)
Theorem enumerations_are_kept
    (b : Browser) (actions : list Action) (store : UIStore) :
  UIProvider_run (UIProvider_mount b) actions = Some store →
  Forall (λ a, ∀ v, payload a = PString v →
                 (type a = "SET_THEME" → isTheme v)
                 ∧ (type a = "SET_DIRECTION" → isDirection v)) actions →
  isTheme (theme (ui (UIProvider_mount b))) →
  isDirection (direction (ui (UIProvider_mount b))) →
  isTheme (theme (ui store)) ∧ isDirection (direction (ui store)).
Proof.
  generalize (UIProvider_mount b). intros st Hrun Hall Hth Hdir.
  revert st Hrun Hth Hdir.
  induction Hall as [|a rest Ha _ IH]; intros st Hrun Hth Hdir.
  - by simplify_eq/=.
  - cbn [UIProvider_run] in Hrun.
    destruct (UIProvider_dispatch st a) as [st1|] eqn:Hd; [|done].
    apply (IH st1 Hrun); clear IH Hrun;
      unfold UIProvider_dispatch in Hd;
      destruct (uiReducer (ui st) a) as [state'|] eqn:Hred; simplify_eq/=;
      destruct a as [ty p]; cbn [type payload] in *;
      (destruct (decide (ty ∈ uiCaseLabels)) as [Hin|Hout];
       [ by_label Hin; switch_label Hred; destruct p; simplify_eq/=;
         first [ done
               | case_decide; [by right|by left]
               | destruct (Ha _ eq_refl) as [Hset1 Hset2];
                 first [by apply Hset1 | by apply Hset2] ]
       | rewrite uiReducer_default in Hred by done; by simplify_eq ]).
Qed.

Lemma enumerations_are_kept_set_dark :
  let b := {| localStorage := ∅; darkClass := false; dir := "" |} in
  ∃ store,
    UIProvider_run (UIProvider_mount b)
      [SET_THEME "dark"; Header_toggleDirection; Header_toggleTheme]
    = Some store
    ∧ isTheme (theme (ui store))
    ∧ isDirection (direction (ui store)).
Proof.
  intros b.
  pose (actions := [SET_THEME "dark"; Header_toggleDirection; Header_toggleTheme]).
  destruct (UIProvider_run (UIProvider_mount b) actions) as [store|] eqn:Hrun;
    [|discriminate Hrun].
  exists store. split; [exact Hrun|].
  apply (enumerations_are_kept b actions store Hrun).
  - repeat first [apply Forall_nil_2 | apply Forall_cons_2];
      intros v Hv; cbn in Hv; [|discriminate Hv|discriminate Hv].
    injection Hv as <-. split; [intros _; by right|discriminate].
  - by left.
  - by left.
Defined.
